(** * Token tracker (bot.py): cache, holder ranking and query handlers

    A shallow embedding of [TokenTracker] and of the Flask handlers of
    [bot.py].

    - Python floats (balances, [time.time()]) are read as exact rationals
      [Q]; the rounding of float arithmetic is outside the model, and the
      int [0] that some paths return is the rational [0].
    - Methods are computations in a state-and-exception monad [M] over a
      [Machine]: the tracker object, a position in the oracle that stands
      for the outside world, and the list of upstream calls issued so far.
    - The outside world is an [Oracle]: a [World] (wall clock and upstream
      answers) for every interaction; each [time.time()] and each upstream
      call reads the world at the current position and moves one further.
    - A transfer record carries its two address strings and its two
      numerals already read as integers, and every time stamp is one
      that [datetime.fromtimestamp] renders.
    - [print] output is not modelled. *)

From Stdlib Require Import ZArith QArith Lqa List String Ascii Lia.
From stdpp Require Import gmap strings list sorting.

Local Open Scope Z_scope.

(** ** Values *)

(** One element of [data['result']]. *)
Record Tx := {
  tx_from : string;
  tx_to : string;
  tx_value : Z;
  tx_timeStamp : Z }.

(** JSON-like values held in the dicts the tracker returns. *)
Inductive Value :=
| VInt (z : Z)
| VFloat (q : Q)
| VStr (s : string).

(** A Python dict whose order of insertion is kept. *)
Definition Dict := list (string * Value).

(** [d[k] = v]: overwrite in place, or append a new key. *)
Fixpoint dict_set (k : string) (v : Value) (d : Dict) : Dict :=
  match d with
  | [] => [(k, v)]
  | (k', v') :: d' =>
      if String.eqb k' k then (k', v) :: d' else (k', v') :: dict_set k v d'
  end.

Fixpoint dict_get (k : string) (d : Dict) : option Value :=
  match d with
  | [] => None
  | (k', v') :: d' => if String.eqb k' k then Some v' else dict_get k d'
  end.

(** ** The tracker object *)

(** [_tx_cache] starts as the empty dict and later holds a list; both
    empty values are false, and the empty list stands for either. *)
Record TokenTracker := {
  decimals : N;
  _balance_cache : gmap string Q;
  _tx_cache : list Tx;
  _token_info_cache : option Dict;
  _cache_lifetime : Q;
  _last_cache_update : Q }.

Definition set_balance_cache (address : string) (v : Q) (t : TokenTracker) :=
  {| decimals := decimals t;
     _balance_cache := <[address := v]> (_balance_cache t);
     _tx_cache := _tx_cache t;
     _token_info_cache := _token_info_cache t;
     _cache_lifetime := _cache_lifetime t;
     _last_cache_update := _last_cache_update t |}.

Definition set_tx_cache (l : list Tx) (t : TokenTracker) :=
  {| decimals := decimals t;
     _balance_cache := _balance_cache t;
     _tx_cache := l;
     _token_info_cache := _token_info_cache t;
     _cache_lifetime := _cache_lifetime t;
     _last_cache_update := _last_cache_update t |}.

Definition set_token_info_cache (d : Dict) (t : TokenTracker) :=
  {| decimals := decimals t;
     _balance_cache := _balance_cache t;
     _tx_cache := _tx_cache t;
     _token_info_cache := Some d;
     _cache_lifetime := _cache_lifetime t;
     _last_cache_update := _last_cache_update t |}.

Definition set_last_cache_update (now : Q) (t : TokenTracker) :=
  {| decimals := decimals t;
     _balance_cache := _balance_cache t;
     _tx_cache := _tx_cache t;
     _token_info_cache := _token_info_cache t;
     _cache_lifetime := _cache_lifetime t;
     _last_cache_update := now |}.

(** ** The outside world *)

(** The JSON envelope of the transaction-history API; each of the two
    keys may be missing. *)
Record Envelope := {
  status : option string;
  result : option (list Tx) }.

(** The wall clock and the upstream answers at one moment; [None] is a
    call that raises. Raw amounts are [uint256], hence [N]. *)
Record World := {
  clock : Q;
  chain_balanceOf : string -> option N;
  chain_symbol : option string;
  chain_name : option string;
  chain_totalSupply : option N;
  etherscan_tokentx : option Envelope }.

Definition Oracle := nat -> World.

(** Upstream calls, as a mock would record them. *)
Inductive Call :=
| CallBalanceOf (address : string)
| CallSymbol
| CallName
| CallTotalSupply
| CallTokenTx.

Record Machine := {
  tracker : TokenTracker;
  tick : nat;
  calls : list Call }.

Definition with_tracker (f : TokenTracker -> TokenTracker) (m : Machine) :=
  {| tracker := f (tracker m); tick := tick m; calls := calls m |}.

Definition advance (m : Machine) :=
  {| tracker := tracker m; tick := S (tick m); calls := calls m |}.

Definition record_call (c : Call) (m : Machine) :=
  {| tracker := tracker m; tick := S (tick m); calls := calls m ++ [c] |}.

(** Library functions the tracker relies on: address normalisation of
    web3 ([None]: the address is refused), the rendering of a Unix time by
    [datetime.fromtimestamp(..).strftime(..)], and the order in which a
    Python [set] of strings is iterated. *)
Class Host := {
  to_checksum_address : string -> option string;
  strftime : Z -> string;
  set_iter : gset string -> list string;
  set_iter_NoDup : forall s, NoDup (set_iter s);
  set_iter_elem : forall s x, x ∈ set_iter s <-> x ∈ s }.

(** ** The monad *)

Inductive Exn :=
| InvalidAddress (address : string)
| UpstreamError
| KeyError (key : string)
| ZeroDivisionError.

Inductive Result (A : Type) :=
| Return (a : A)
| Raise (e : Exn).
Arguments Return {A} a.
Arguments Raise {A} e.

Definition M (A : Type) : Type := Oracle -> Machine -> Machine * Result A.

Definition ret {A} (a : A) : M A := fun _ m => (m, Return a).

Definition raise {A} (e : Exn) : M A := fun _ m => (m, Raise e).

Definition bind {A B} (c : M A) (k : A -> M B) : M B :=
  fun w m =>
    match c w m with
    | (m', Return a) => k a w m'
    | (m', Raise e) => (m', Raise e)
    end.

(** [try: c  except Exception: h]; what [c] did to the state stays. *)
Definition try_except {A} (c : M A) (h : Exn -> M A) : M A :=
  fun w m =>
    match c w m with
    | (m', Return a) => (m', Return a)
    | (m', Raise e) => h e w m'
    end.

Declare Scope py_scope.
Delimit Scope py_scope with py.
Notation "x <- c ;; k" := (bind c (fun x => k))
  (at level 100, c at next level, right associativity) : py_scope.
Notation "c ;;; k" := (bind c (fun _ => k))
  (at level 100, right associativity) : py_scope.
Local Open Scope py_scope.

Definition get_self : M TokenTracker := fun _ m => (m, Return (tracker m)).

Definition update_self (f : TokenTracker -> TokenTracker) : M unit :=
  fun _ m => (with_tracker f m, Return tt).

Definition time_time : M Q :=
  fun w m => (advance m, Return (clock (w (tick m)))).

(** An upstream call: recorded, then answered by the current world. *)
Definition upstream {A} (c : Call) (answer : World -> option A) : M A :=
  fun w m =>
    (record_call c m,
     match answer (w (tick m)) with
     | Some a => Return a
     | None => Raise UpstreamError
     end).

(** [for x in l: acc = body(acc, x)]. *)
Fixpoint for_each {A B} (l : list A) (body : B -> A -> M B) (acc : B) : M B :=
  match l with
  | [] => ret acc
  | x :: l' => acc' <- body acc x ;; for_each l' body acc'
  end.

(** ** TokenTracker methods *)

Definition CONTRACT_ADDRESS : string := "0x1a9b54a3075119f1546c52ca0940551a6ce5d2d0".

Definition BURN_ADDRESS : string := "0x0000000000000000000000000000000000000000".

(** [__init__]: [decimals] is read from the chain once; the caches start
    empty and the shared timestamp at 0. *)
Definition init (decimals_answer : N) : TokenTracker :=
  {| decimals := decimals_answer;
     _balance_cache := ∅;
     _tx_cache := [];
     _token_info_cache := None;
     _cache_lifetime := 300%Q;
     _last_cache_update := 0%Q |}.

(** [a < b] on floats. *)
Definition lt (a b : Q) : bool :=
  Qnum a * QDen b <? Qnum b * QDen a.

Definition _is_cache_valid : M bool :=
  now <- time_time ;;
  self <- get_self ;;
  ret (lt (now - _last_cache_update self) (_cache_lifetime self)).

Definition _update_cache_timestamp : M unit :=
  now <- time_time ;;
  update_self (set_last_cache_update now).

Definition format_balance (self : TokenTracker) (balance : Z) : Q :=
  (inject_Z balance / inject_Z (10 ^ Z.of_N (decimals self)))%Q.

Definition w3_to_checksum_address `{Host} (address : string) : M string :=
  match to_checksum_address address with
  | Some a => ret a
  | None => raise (InvalidAddress address)
  end.

Definition get_balance `{Host} (address : string) : M Q :=
  address <- w3_to_checksum_address address ;;
  valid <- _is_cache_valid ;;
  self <- get_self ;;
  match (if valid then _balance_cache self !! address else None) with
  | Some cached => ret cached
  | None =>
      try_except
        (balance <- upstream (CallBalanceOf address)
                             (fun world => chain_balanceOf world address) ;;
         self <- get_self ;;
         let formatted_balance := format_balance self (Z.of_N balance) in
         update_self (set_balance_cache address formatted_balance) ;;;
         _update_cache_timestamp ;;;
         ret formatted_balance)
        (fun _ => ret 0%Q)
  end.

Definition get_balance_batch `{Host} (addresses : list string) : M (list Q) :=
  for_each addresses
    (fun acc addr => b <- get_balance addr ;; ret (acc ++ [b])) [].

Definition _get_token_transactions : M (list Tx) :=
  valid <- _is_cache_valid ;;
  self <- get_self ;;
  if valid && negb (bool_decide (_tx_cache self = [])) then ret (_tx_cache self)
  else
    try_except
      (data <- upstream CallTokenTx etherscan_tokentx ;;
       match status data with
       | None => raise (KeyError "status")
       | Some st =>
           match (if String.eqb st "1" then result data else None) with
           | Some txs =>
               update_self (set_tx_cache txs) ;;;
               _update_cache_timestamp ;;;
               self <- get_self ;;
               ret (_tx_cache self)
           | None => ret []
           end
       end)
      (fun _ => ret []).

(** [sorted(l, key=..., reverse=True)]: descending by key and stable, so
    elements with equal keys keep the order they had in [l]. *)
Fixpoint insert_desc {A} (key : A -> Q) (x : A) (l : list A) : list A :=
  match l with
  | [] => [x]
  | y :: l' => if lt (key x) (key y) then y :: insert_desc key x l' else x :: l
  end.

Definition sorted_desc {A} (key : A -> Q) (l : list A) : list A :=
  foldr (insert_desc key) [] l.

(** [l[:n]], also for a negative [n]. *)
Definition slice_to {A} (n : Z) (l : list A) : list A :=
  if n <? 0 then take (Z.to_nat (Z.of_nat (length l) + n)) l
  else take (Z.to_nat n) l.

Definition tx_addresses (transactions : list Tx) : gset string :=
  foldl (fun addresses tx => addresses ∪ {[tx_from tx]} ∪ {[tx_to tx]})
        ∅ transactions.

Definition get_top_holders `{Host} (n : Z) : M (list (string * Q)) :=
  transactions <- _get_token_transactions ;;
  match transactions with
  | [] => ret []
  | _ =>
      let addresses := tx_addresses transactions in
      holders <-
        for_each (set_iter addresses)
          (fun holders address =>
             if String.eqb address BURN_ADDRESS then ret holders
             else
               try_except
                 (balance <- get_balance address ;;
                  if lt 0 balance then ret (holders ++ [(address, balance)])
                  else ret holders)
                 (fun _ => ret holders))
          [] ;;
      ret (slice_to n (sorted_desc snd holders))
  end.

(** [holders_data]: address, then balance and ['last_tx'], in the order
    the keys were added. *)
Definition HoldersData := list (string * (Q * string)).

Definition holders_data_has (address : string) (d : HoldersData) : bool :=
  existsb (fun kv => String.eqb (fst kv) address) d.

Definition get_top_with_transactions `{Host} (n : Z)
  : M (list (string * Q * string)) :=
  transactions <- _get_token_transactions ;;
  match transactions with
  | [] => ret []
  | _ =>
      holders_data <-
        for_each transactions
          (fun holders_data tx =>
             for_each [tx_to tx; tx_from tx]
               (fun (holders_data : HoldersData) address =>
                  if negb (holders_data_has address holders_data)
                     && negb (String.eqb address BURN_ADDRESS)
                  then
                    try_except
                      (balance <- get_balance address ;;
                       if lt 0 balance
                       then ret (holders_data
                                   ++ [(address, (balance, strftime (tx_timeStamp tx)))])
                       else ret holders_data)
                      (fun _ => ret holders_data)
                  else ret holders_data)
               holders_data)
          [] ;;
      ret (slice_to n
             (sorted_desc (fun x => snd (fst x))
                (map (fun kv => (fst kv, fst (snd kv), snd (snd kv))) holders_data)))
  end.

(** Truth value of [self._token_info_cache]: [None] and the empty dict
    are false. *)
Definition truthy_info (c : option Dict) : option Dict :=
  match c with
  | Some (kv :: d) => Some (kv :: d)
  | _ => None
  end.

Definition get_token_info : M Dict :=
  try_except
    (valid <- _is_cache_valid ;;
     self <- get_self ;;
     match (if valid then truthy_info (_token_info_cache self) else None) with
     | Some cached => ret cached
     | None =>
         symbol <- upstream CallSymbol chain_symbol ;;
         name <- upstream CallName chain_name ;;
         total_supply <- upstream CallTotalSupply chain_totalSupply ;;
         self <- get_self ;;
         let info := [("symbol", VStr symbol);
                      ("name", VStr name);
                      ("totalSupply", VFloat (format_balance self (Z.of_N total_supply)))] in
         update_self (set_token_info_cache info) ;;;
         _update_cache_timestamp ;;;
         ret info
     end)
    (fun _ => ret []).

(** [sum(balance for _, balance in holders)]: the int 0 of an empty sum,
    a float otherwise. *)
Definition py_sum (l : list Q) : Value :=
  match l with
  | [] => VInt 0
  | _ => VFloat (foldl Qplus 0%Q l)
  end.

(** The balances of a ranking added up one after the other, from the
    first entry to the last, on top of [start]. *)
Fixpoint added_up (start : Q) (holders : list (string * Q)) : Q :=
  match holders with
  | [] => start
  | (_, balance) :: rest => added_up (start + balance)%Q rest
  end.

(** [a / b] with an int divisor: raises on zero. *)
Definition truediv (a : Q) (b : Z) : M Q :=
  if b =? 0 then raise ZeroDivisionError
  else ret (a / inject_Z b)%Q.

Definition get_token_stats `{Host} : M Dict :=
  try_except
    (basic_info <- get_token_info ;;
     holders <- get_top_holders 100 ;;
     let total_held := py_sum (map snd holders) in
     let unique_holders := Z.of_nat (length holders) in
     average_balance <-
       (if 0 <? unique_holders
        then q <- truediv (foldl Qplus 0%Q (map snd holders)) unique_holders ;;
             ret (VFloat q)
        else ret (VInt 0)) ;;
     ret (dict_set "average_balance" average_balance
            (dict_set "total_held" total_held
               (dict_set "unique_holders" (VInt unique_holders) basic_info))))
    (fun _ => ret []).

(** [str.lower] on ASCII text. *)
Definition ascii_lower (c : ascii) : ascii :=
  let n := nat_of_ascii c in
  if (65 <=? n)%nat && (n <=? 90)%nat then ascii_of_nat (n + 32) else c.

Fixpoint lower (s : string) : string :=
  match s with
  | EmptyString => EmptyString
  | String c s' => String (ascii_lower c) (lower s')
  end.

(** One dict of the history: ['type'], ['counterparty'], ['amount'],
    ['timestamp']. *)
Record HistoryEntry := {
  h_type : string;
  h_counterparty : string;
  h_amount : Q;
  h_timestamp : string }.

Definition touches (address : string) (tx : Tx) : bool :=
  String.eqb (lower (tx_to tx)) (lower address)
  || String.eqb (lower (tx_from tx)) (lower address).

Definition history_entry `{Host} (self : TokenTracker) (address : string) (tx : Tx)
  : HistoryEntry :=
  let received := String.eqb (lower (tx_to tx)) (lower address) in
  {| h_type := if received then "receive" else "send";
     h_counterparty := if received then tx_from tx else tx_to tx;
     h_amount := format_balance self (tx_value tx);
     h_timestamp := strftime (tx_timeStamp tx) |}.

(** The loop of [get_address_history], with its [break]. *)
Fixpoint history_loop `{Host} (self : TokenTracker) (address : string) (limit : Z)
    (transactions : list Tx) (address_txs : list HistoryEntry) : list HistoryEntry :=
  match transactions with
  | [] => address_txs
  | tx :: rest =>
      let address_txs :=
        if touches address tx
        then address_txs ++ [history_entry self address tx]
        else address_txs in
      if limit <=? Z.of_nat (length address_txs) then address_txs
      else history_loop self address limit rest address_txs
  end.

Definition get_address_history `{Host} (address : string) (limit : Z)
  : M (list HistoryEntry) :=
  try_except
    (transactions <- _get_token_transactions ;;
     address <- w3_to_checksum_address address ;;
     self <- get_self ;;
     ret (history_loop self address limit transactions []))
    (fun _ => ret []).

(** ** Flask handlers *)

#[local] Set Warnings "-register-all".

Inductive Json :=
| JInt (z : Z)
| JFloat (q : Q)
| JStr (s : string)
| JList (l : list Json)
| JObject (fields : list (string * Json)).

(** A handler's answer: body and HTTP status. *)
Definition Response : Type := Json * Z.

Definition json_of_value (v : Value) : Json :=
  match v with
  | VInt z => JInt z
  | VFloat q => JFloat q
  | VStr s => JStr s
  end.

Definition jsonify_dict (d : Dict) : Json :=
  JObject (map (fun kv => (fst kv, json_of_value (snd kv))) d).

(** [str(e)]. *)
Definition str_exn (e : Exn) : string :=
  match e with
  | InvalidAddress a => "invalid address: " +:+ a
  | UpstreamError => "upstream error"
  | KeyError k => k
  | ZeroDivisionError => "division by zero"
  end.

Definition error (msg : string) : Response :=
  (JObject [("error", JStr msg)], 400).

Definition ok (body : Json) : Response := (body, 200).

(** [except Exception as e: return jsonify({"error": str(e)}), 400]. *)
Definition guarded (c : M Response) : M Response :=
  try_except c (fun e => ret (error (str_exn e))).

(** [not address] for a query argument that may be absent. *)
Definition missing (arg : option string) : bool :=
  match arg with
  | None => true
  | Some a => String.eqb a ""
  end.

Definition api_get_balance `{Host} (address : option string) : M Response :=
  if missing address then ret (error "Address parameter is required")
  else
    guarded
      (balance <- get_balance (default "" address) ;;
       ret (ok (JObject [("balance", JFloat balance)]))).

(** The value that [request.get_json()] returned to the handler: JSON
    [null], or a JSON object, its keys mapped to lists of strings as the
    endpoint documents for ['addresses']; other JSON values are left
    out.  The handler is modelled from this value on.  A request on
    which [get_json] itself raises (a body that is missing, is not
    declared as JSON or does not parse) is answered by Flask, outside
    the handler's [try] and before its check; such a request gives no
    value of this type. *)
Inductive BatchData :=
| DataNull
| DataObject (fields : gmap string (list string)).

(** [not data]: [None] and the empty dict are false. *)
Definition not_data (data : BatchData) : bool :=
  match data with
  | DataNull => true
  | DataObject fields => bool_decide (fields = ∅)
  end.

(** ['addresses' in data] and [data['addresses']]: the list under the
    key, when the object has the key. *)
Definition data_get (key : string) (data : BatchData) : option (list string) :=
  match data with
  | DataNull => None
  | DataObject fields => fields !! key
  end.

Definition api_get_balance_batch `{Host} (data : BatchData) : M Response :=
  if not_data data
  then ret (error "Addresses are required in request body")
  else
    match data_get "addresses" data with
    | None => ret (error "Addresses are required in request body")
    | Some addresses =>
        guarded
          (balances <- get_balance_batch addresses ;;
           ret (ok (JObject [("balances", JList (map JFloat balances))])))
    end.

(** [n] is [request.args.get('n', default=10, type=int)]: [None] stands
    for an argument that is absent or is not an integer. *)
Definition api_get_top `{Host} (arg_n : option Z) : M Response :=
  guarded
    (let n := default 10 arg_n in
     if n <=? 0 then ret (error "Parameter 'n' must be positive")
     else
       top_holders <- get_top_holders n ;;
       ret (ok (JObject
                  [("top_holders",
                    JList (map (fun h => JObject [("address", JStr (fst h));
                                                  ("balance", JFloat (snd h))])
                               top_holders))]))).

Definition api_get_top_with_transactions `{Host} (arg_n : option Z) : M Response :=
  guarded
    (let n := default 10 arg_n in
     if n <=? 0 then ret (error "Parameter 'n' must be positive")
     else
       top_holders <- get_top_with_transactions n ;;
       ret (ok (JObject
                  [("holders",
                    JList (map (fun h => JObject [("address", JStr (fst (fst h)));
                                                  ("balance", JFloat (snd (fst h)));
                                                  ("last_transaction", JStr (snd h))])
                               top_holders))]))).

Definition api_token_info : M Response :=
  guarded (info <- get_token_info ;; ret (ok (jsonify_dict info))).

Definition api_token_stats `{Host} : M Response :=
  guarded (stats <- get_token_stats ;; ret (ok (jsonify_dict stats))).

Definition json_of_history (h : HistoryEntry) : Json :=
  JObject [("type", JStr (h_type h));
           ("counterparty", JStr (h_counterparty h));
           ("amount", JFloat (h_amount h));
           ("timestamp", JStr (h_timestamp h))].

Definition api_address_history `{Host} (address : option string) (arg_limit : option Z)
  : M Response :=
  let limit := default 100 arg_limit in
  if missing address then ret (error "Address parameter is required")
  else
    guarded
      (history <- get_address_history (default "" address) limit ;;
       ret (ok (JObject [("address", JStr (default "" address));
                         ("transactions", JList (map json_of_history history))]))).

(** ** Runs of the service *)

(** The operations of the tracker that a request can start. *)
Inductive Query :=
| QBalance (address : string)
| QBalanceBatch (addresses : list string)
| QTopHolders (n : Z)
| QTopWithTransactions (n : Z)
| QTokenInfo
| QTokenStats
| QAddressHistory (address : string) (limit : Z).

Definition run_query `{Host} (q : Query) : M unit :=
  match q with
  | QBalance a => get_balance a ;;; ret tt
  | QBalanceBatch l => get_balance_batch l ;;; ret tt
  | QTopHolders n => get_top_holders n ;;; ret tt
  | QTopWithTransactions n => get_top_with_transactions n ;;; ret tt
  | QTokenInfo => get_token_info ;;; ret tt
  | QTokenStats => get_token_stats ;;; ret tt
  | QAddressHistory a limit => get_address_history a limit ;;; ret tt
  end.

(** The machine right after [tracker = TokenTracker()]. *)
Definition boot (decimals_answer : N) : Machine :=
  {| tracker := init decimals_answer; tick := 0; calls := [] |}.

(** Machines that a sequence of queries reaches from a fresh tracker whose
    token has [d] decimals. *)
Inductive reachable `{Host} (w : Oracle) (d : N) : Machine -> Prop :=
| reach_boot : reachable w d (boot d)
| reach_query m q : reachable w d m -> reachable w d (fst (run_query q w m)).

(** ** Cache conditions, as the methods evaluate them *)

(** What [_is_cache_valid] answers at the next clock reading. *)
Definition fresh (w : Oracle) (m : Machine) : bool :=
  lt (clock (w (tick m)) - _last_cache_update (tracker m))
     (_cache_lifetime (tracker m)).

Definition balance_hit (w : Oracle) (m : Machine) (a : string) : option Q :=
  if fresh w m then _balance_cache (tracker m) !! a else None.

Definition tx_hit (w : Oracle) (m : Machine) : bool :=
  fresh w m && negb (bool_decide (_tx_cache (tracker m) = [])).

Definition info_hit (w : Oracle) (m : Machine) : option Dict :=
  if fresh w m then truthy_info (_token_info_cache (tracker m)) else None.

(** The shared timestamp is less than the lifetime before the next clock
    reading. *)
Definition shared_fresh (w : Oracle) (m : Machine) : Prop :=
  (clock (w (tick m)) - _last_cache_update (tracker m)
   < _cache_lifetime (tracker m))%Q.

(** What the cache holds: one balance per address, the log, the token
    info. *)
Inductive Category :=
| BalanceOf (a : string)
| TransactionLog
| TokenInfo.

(** [fetched w m cat m1]: from [m], a read of category [cat] missed the
    cache, its upstream calls succeeded, and the read left [m1]. *)
Inductive fetched `{Host} (w : Oracle) (m : Machine) : Category -> Machine -> Prop :=
| fetched_balance address a raw :
    to_checksum_address address = Some a ->
    balance_hit w m a = None ->
    chain_balanceOf (w (S (tick m))) a = Some raw ->
    fetched w m (BalanceOf a) (fst (get_balance address w m))
| fetched_log data txs :
    tx_hit w m = false ->
    etherscan_tokentx (w (S (tick m))) = Some data ->
    status data = Some "1" ->
    result data = Some txs ->
    fetched w m TransactionLog (fst (_get_token_transactions w m))
| fetched_info symbol name total_supply :
    info_hit w m = None ->
    chain_symbol (w (S (tick m))) = Some symbol ->
    chain_name (w (S (S (tick m)))) = Some name ->
    chain_totalSupply (w (S (S (S (tick m))))) = Some total_supply ->
    fetched w m TokenInfo (fst (get_token_info w m)).

(** Freshness of one entry as the specification words it: the entry's own
    last refresh is less than the lifetime before the reading. *)
Definition entry_fresh (now last_refresh lifetime : Q) : Prop :=
  (now - last_refresh < lifetime)%Q.

(** Every cached balance is non-negative. *)
Definition cache_nonneg (t : TokenTracker) : Prop :=
  forall a v, _balance_cache t !! a = Some v -> (0 <= v)%Q.

(** Hoare triple of a computation: from a tracker in [T], a return value
    in [Q] or an exception in [E], and a tracker in [T] again. *)
Definition spec {A} (T : TokenTracker -> Prop) (Q : A -> Prop) (E : Exn -> Prop)
    (c : M A) : Prop :=
  forall w m, T (tracker m) ->
    match c w m with
    | (m', Return a) => T (tracker m') /\ Q a
    | (m', Raise e) => T (tracker m') /\ E e
    end.

(** Properties of the tracker that every write of the methods keeps. *)
Record cache_invariant (T : TokenTracker -> Prop) : Prop := {
  keeps_balance : forall t self a raw,
    T t -> T (set_balance_cache a (format_balance self (Z.of_N raw)) t);
  keeps_tx : forall t l, T t -> T (set_tx_cache l t);
  keeps_info : forall t d, T t -> T (set_token_info_cache d t);
  keeps_timestamp : forall t now, T t -> T (set_last_cache_update now t) }.

Definition any {A} (_ : A) : Prop := True.

Definition none {A} (_ : A) : Prop := False.

(** The computation keeps the tracker in [T], whatever it returns. *)
Definition keeps {A} (T : TokenTracker -> Prop) (c : M A) : Prop :=
  spec T any any c.

(** A balance that [get_balance] returns is the int 0 or sits in the
    cache of a tracker in [T]. *)
Definition balance_post (T : TokenTracker -> Prop) (v : Q) : Prop :=
  v = 0%Q \/ exists t a, T t /\ _balance_cache t !! a = Some v.

(** Cached balances are non-negative and [decimals] is the value read at
    construction. *)
Definition balance_invariant (d : N) (t : TokenTracker) : Prop :=
  cache_nonneg t /\ decimals t = d.

(** From greater to smaller keys; equal keys may stand side by side. *)
Definition descending {A} (key : A -> Q) (l : list A) : Prop :=
  StronglySorted (fun x y => (key y <= key x)%Q) l.

(** From greater to smaller keys, no two keys equal. *)
Definition strictly_descending {A} (key : A -> Q) (l : list A) : Prop :=
  StronglySorted (fun x y => (key y < key x)%Q) l.

(** A holder entry that the ranking may list. *)
Definition qualifies (h : string * Q) : Prop :=
  fst h <> BURN_ADDRESS /\ (0 < snd h)%Q.

(** ** The address history in words of its own *)

(** The same character, or the same letter of [A]..[Z] once in upper and
    once in lower case. *)
Definition same_letter (c d : ascii) : bool :=
  let x := nat_of_ascii c in
  let y := nat_of_ascii d in
  (x =? y)%nat
  || (65 <=? x)%nat && (x <=? 90)%nat && (y =? x + 32)%nat
  || (65 <=? y)%nat && (y <=? 90)%nat && (x =? y + 32)%nat.

(** Two strings that are equal up to the case of their letters. *)
Fixpoint caseless_eqb (s t : string) : bool :=
  match s, t with
  | EmptyString, EmptyString => true
  | String c s', String d t' => same_letter c d && caseless_eqb s' t'
  | _, _ => false
  end.

(** A record whose sender or recipient is [address], whatever the case
    of the letters on either side. *)
Definition names (address : string) (tx : Tx) : bool :=
  caseless_eqb (tx_from tx) address || caseless_eqb (tx_to tx) address.

(** What the history of [address] shows for a record that names it, for
    a token of [d] decimals: a receipt from the sender when [address] is
    the recipient, otherwise a sending to the recipient; the amount in
    whole tokens and the time of the record. *)
Definition history_record `{Host} (d : N) (address : string) (tx : Tx)
  : HistoryEntry :=
  if caseless_eqb (tx_to tx) address
  then {| h_type := "receive";
          h_counterparty := tx_from tx;
          h_amount := (inject_Z (tx_value tx) / inject_Z (10 ^ Z.of_N d))%Q;
          h_timestamp := strftime (tx_timeStamp tx) |}
  else {| h_type := "send";
          h_counterparty := tx_to tx;
          h_amount := (inject_Z (tx_value tx) / inject_Z (10 ^ Z.of_N d))%Q;
          h_timestamp := strftime (tx_timeStamp tx) |}.

(** ** Example host and worlds *)

(** [%Y-%m-%d %H:%M:%S] of a Unix time, in UTC. *)
Definition civil_from_days (days : Z) : Z * Z * Z :=
  let z := days + 719468 in
  let era := z / 146097 in
  let doe := z - era * 146097 in
  let yoe := (doe - doe / 1460 + doe / 36524 - doe / 146096) / 365 in
  let doy := doe - (365 * yoe + yoe / 4 - yoe / 100) in
  let mp := (5 * doy + 2) / 153 in
  let d := doy - (153 * mp + 2) / 5 + 1 in
  let mo := if mp <? 10 then mp + 3 else mp - 9 in
  let y := yoe + era * 400 in
  (if mo <=? 2 then y + 1 else y, mo, d).

Definition digit (n : Z) : string :=
  String (ascii_of_nat (48 + Z.to_nat (n mod 10))) EmptyString.

Definition pad2 (n : Z) : string := digit (n / 10) +:+ digit n.

Definition pad4 (n : Z) : string := pad2 (n / 100) +:+ pad2 n.

Definition utc_strftime (t : Z) : string :=
  let '(y, mo, d) := civil_from_days (t / 86400) in
  let secs := t mod 86400 in
  pad4 y +:+ "-" +:+ pad2 mo +:+ "-" +:+ pad2 d +:+ " "
    +:+ pad2 (secs / 3600) +:+ ":" +:+ pad2 (secs / 60 mod 60) +:+ ":"
    +:+ pad2 (secs mod 60).

Fixpoint all_digits (s : string) : bool :=
  match s with
  | EmptyString => true
  | String c s' =>
      let n := nat_of_ascii c in
      (48 <=? n)%nat && (n <=? 57)%nat && all_digits s'
  end.

(** Address normalisation on the addresses that hold no letter, where the
    checksummed form is the address itself; every other string is
    refused. *)
Definition digits_checksum (s : string) : option string :=
  match s with
  | String "0" (String "x" body) =>
      if (String.length body =? 40)%nat && all_digits body then Some s else None
  | _ => None
  end.

Definition example_host : Host :=
  {| to_checksum_address := digits_checksum;
     strftime := utc_strftime;
     set_iter := elements;
     set_iter_NoDup := NoDup_elements;
     set_iter_elem := fun s x => elem_of_elements s x |}.

Definition addr1 : string := "0x1111111111111111111111111111111111111111".
Definition addr2 : string := "0x2222222222222222222222222222222222222222".
Definition addr3 : string := "0x3333333333333333333333333333333333333333".

Definition world (now : Q) (balances : string -> option N)
    (log : option Envelope) : World :=
  {| clock := now;
     chain_balanceOf := balances;
     chain_symbol := Some "TKN";
     chain_name := Some "Token";
     chain_totalSupply := Some 1000000000000%N;
     etherscan_tokentx := log |}.

Definition balances_of (l : list (string * N)) (a : string) : option N :=
  Some (default 0%N (snd <$> List.find (fun kv => String.eqb (fst kv) a) l)).

Definition success (txs : list Tx) : option Envelope :=
  Some {| status := Some "1"; result := Some txs |}.

(** Three balance lookups: [addr1] at time 1000, [addr2] at time 1290,
    [addr1] again at time 1500, when its balance on chain has changed. *)
Definition shared_clock_oracle : Oracle :=
  fun k =>
    if (k <? 3)%nat
    then world 1000 (balances_of [(addr1, 5000000%N); (addr2, 1000000%N)]) None
    else if (k <? 6)%nat
    then world 1290 (balances_of [(addr1, 5000000%N); (addr2, 1000000%N)]) None
    else world 1500 (balances_of [(addr1, 7000000%N); (addr2, 1000000%N)]) None.

(** The scenario of the specification: two transfers, decimals 6. *)
Definition scenario_log : list Tx :=
  [ {| tx_from := addr1; tx_to := addr2; tx_value := 5000000; tx_timeStamp := 200 |};
    {| tx_from := addr2; tx_to := addr3; tx_value := 1000000; tx_timeStamp := 100 |} ].

Definition scenario_oracle : Oracle :=
  fun _ => world 1000
             (balances_of [(addr1, 0%N); (addr2, 5000000%N); (addr3, 1000000%N)])
             (success scenario_log).

(** Two holders with the same balance. *)
Definition tie_oracle : Oracle :=
  fun _ => world 1000
             (balances_of [(addr1, 1000000%N); (addr2, 1000000%N)])
             (success [ {| tx_from := addr1; tx_to := addr2;
                           tx_value := 1000000; tx_timeStamp := 200 |} ]).

(** [addr2] receives twice; its first balance lookup fails upstream, the
    later ones succeed. *)
Definition flaky_log : list Tx :=
  [ {| tx_from := addr1; tx_to := addr2; tx_value := 5000000; tx_timeStamp := 200 |};
    {| tx_from := addr3; tx_to := addr2; tx_value := 1000000; tx_timeStamp := 100 |} ].

Definition flaky_oracle : Oracle :=
  fun k =>
    world 1000
      (fun a =>
         if String.eqb a addr2 && (k <? 5)%nat then None
         else balances_of [(addr1, 0%N); (addr2, 6000000%N); (addr3, 0%N)] a)
      (success flaky_log).

(** No transfer has been indexed. *)
Definition empty_log_oracle : Oracle :=
  fun _ => world 1000 (balances_of []) (success []).

(** Every upstream call fails. *)
Definition outage_oracle : Oracle :=
  fun _ => {| clock := 1000;
              chain_balanceOf := fun _ => None;
              chain_symbol := None;
              chain_name := None;
              chain_totalSupply := None;
              etherscan_tokentx := None |}.

(** ** Predicates of the further properties *)

(** An entry of [holders_data] that the scan of [log] may have written:
    a positive balance of an address other than the burn address, with
    the rendered time of a record of [log] that names the address. *)
Definition recorded_from `{Host} (log : list Tx) (kv : string * (Q * string)) : Prop :=
  fst kv <> BURN_ADDRESS
  /\ (0 < fst (snd kv))%Q
  /\ exists tx, tx ∈ log
                /\ (fst kv = tx_to tx \/ fst kv = tx_from tx)
                /\ snd (snd kv) = strftime (tx_timeStamp tx).

(** Properties of the tracker that each write made by a method keeps:
    a balance formatted with the tracker's own decimals, a fetched log,
    a token info of the three fields, a new timestamp. *)
Record write_invariant (T : TokenTracker -> Prop) : Prop := {
  writes_balance : forall t a raw,
    T t -> T (set_balance_cache a (format_balance t (Z.of_N raw)) t);
  writes_tx : forall t l, T t -> T (set_tx_cache l t);
  writes_info : forall t symbol name total_supply,
    T t ->
    T (set_token_info_cache
         [("symbol", VStr symbol);
          ("name", VStr name);
          ("totalSupply", VFloat (format_balance t (Z.of_N total_supply)))] t);
  writes_timestamp : forall t now, T t -> T (set_last_cache_update now t) }.

(** The caches of a tracker whose token has [d] decimals: every cached
    balance is a raw amount over [10^d], and a cached token info holds
    the three fields. *)
Definition well_formed (d : N) (t : TokenTracker) : Prop :=
  decimals t = d
  /\ (forall a v, _balance_cache t !! a = Some v ->
        exists raw : N, v = format_balance t (Z.of_N raw))
  /\ (forall info, _token_info_cache t = Some info ->
        exists symbol name (total_supply : N),
          info = [("symbol", VStr symbol);
                  ("name", VStr name);
                  ("totalSupply", VFloat (format_balance t (Z.of_N total_supply)))]).

(** ** Further example hosts and worlds *)

(** Two accounts in their EIP-55 form. *)
Definition account1 : string := "0x51f1774249Fc2B0C2603542Ac6184Ae1d048351d".
Definition account2 : string := "0x4830AF4aB9cd9E381602aE50f71AE481a7727f7C".

(** Address normalisation on the addresses without letters and on the two
    accounts, typed in any case: the EIP-55 form of the account. *)
Definition known_checksum (s : string) : option string :=
  match digits_checksum s with
  | Some a => Some a
  | None => List.find (caseless_eqb s) [account1; account2]
  end.

Definition known_host : Host :=
  {| to_checksum_address := known_checksum;
     strftime := utc_strftime;
     set_iter := elements;
     set_iter_NoDup := NoDup_elements;
     set_iter_elem := fun s x => elem_of_elements s x |}.

(** A log with its addresses in lower case, as the API writes them:
    [account1] receives, a transfer between two other addresses,
    [account1] sends, [account1] receives. *)
Definition account_log : list Tx :=
  [ {| tx_from := "0x4830af4ab9cd9e381602ae50f71ae481a7727f7c"; tx_to := "0x51f1774249fc2b0c2603542ac6184ae1d048351d";
       tx_value := 3000000; tx_timeStamp := 400 |};
    {| tx_from := addr1; tx_to := addr3;
       tx_value := 7000000; tx_timeStamp := 300 |};
    {| tx_from := "0x51f1774249fc2b0c2603542ac6184ae1d048351d"; tx_to := addr1;
       tx_value := 1000000; tx_timeStamp := 200 |};
    {| tx_from := addr2; tx_to := "0x51f1774249fc2b0c2603542ac6184ae1d048351d";
       tx_value := 2000000; tx_timeStamp := 100 |} ].

Definition account_oracle : Oracle :=
  fun _ => world 1000 (balances_of []) (success account_log).

(** A lookup at time 1000 succeeds; from then on the clock shows 2000
    and every upstream call fails. *)
Definition expiry_oracle : Oracle :=
  fun k =>
    if (k <? 3)%nat
    then world 1000 (balances_of [(addr1, 5000000%N)]) None
    else {| clock := 2000;
            chain_balanceOf := fun _ => None;
            chain_symbol := None;
            chain_name := None;
            chain_totalSupply := None;
            etherscan_tokentx := None |}.

(** * Properties *)

(** ** The three cached reads, case by case *)

Lemma lt_spec (a b : Q) : lt a b = true <-> (a < b)%Q.
Proof. unfold lt, Qlt. apply Z.ltb_lt. Qed.

Lemma lt_false (a b : Q) : lt a b = false <-> (b <= a)%Q.
Proof. unfold lt, Qle. apply Z.ltb_ge. Qed.

Section Balance.
Context `{Host}.
Variables (w : Oracle) (m : Machine) (address a : string).
Hypothesis normalised : to_checksum_address address = Some a.

Lemma get_balance_hit (v : Q) :
  balance_hit w m a = Some v ->
  get_balance address w m = (advance m, Return v).
Proof.
  unfold balance_hit, fresh, get_balance, w3_to_checksum_address.
  rewrite normalised. intros Hhit.
  unfold bind, ret, _is_cache_valid, time_time, get_self; simpl.
  now rewrite Hhit.
Qed.

Lemma get_balance_fetch (raw : N) :
  balance_hit w m a = None ->
  chain_balanceOf (w (S (tick m))) a = Some raw ->
  get_balance address w m =
    ({| tracker :=
          set_last_cache_update (clock (w (S (S (tick m)))))
            (set_balance_cache a (format_balance (tracker m) (Z.of_N raw))
               (tracker m));
        tick := S (S (S (tick m)));
        calls := calls m ++ [CallBalanceOf a] |},
     Return (format_balance (tracker m) (Z.of_N raw))).
Proof.
  unfold balance_hit, fresh, get_balance, w3_to_checksum_address.
  rewrite normalised. intros Hmiss Hraw.
  unfold bind, ret, _is_cache_valid, time_time, get_self; simpl.
  rewrite Hmiss.
  unfold try_except, bind, upstream, _update_cache_timestamp, update_self,
    time_time, get_self, ret; simpl.
  now rewrite Hraw.
Qed.

Lemma get_balance_fail :
  balance_hit w m a = None ->
  chain_balanceOf (w (S (tick m))) a = None ->
  get_balance address w m =
    (record_call (CallBalanceOf a) (advance m), Return 0%Q).
Proof.
  unfold balance_hit, fresh, get_balance, w3_to_checksum_address.
  rewrite normalised. intros Hmiss Hraw.
  unfold bind, ret, _is_cache_valid, time_time, get_self; simpl.
  rewrite Hmiss.
  unfold try_except, bind, upstream, ret; simpl.
  now rewrite Hraw.
Qed.
End Balance.

Lemma get_balance_invalid `{Host} (w : Oracle) (m : Machine) (address : string) :
  to_checksum_address address = None ->
  get_balance address w m = (m, Raise (InvalidAddress address)).
Proof.
  intros Hno. unfold get_balance, w3_to_checksum_address. now rewrite Hno.
Qed.

Section TransactionLog.
Variables (w : Oracle) (m : Machine).

Lemma tx_hit_cached :
  tx_hit w m = true ->
  _get_token_transactions w m = (advance m, Return (_tx_cache (tracker m))).
Proof.
  unfold tx_hit, fresh, _get_token_transactions. intros Hhit.
  unfold bind, ret, _is_cache_valid, time_time, get_self; simpl.
  now rewrite Hhit.
Qed.

Lemma tx_fetch (txs : list Tx) (data : Envelope) :
  tx_hit w m = false ->
  etherscan_tokentx (w (S (tick m))) = Some data ->
  status data = Some "1" ->
  result data = Some txs ->
  _get_token_transactions w m =
    ({| tracker :=
          set_last_cache_update (clock (w (S (S (tick m)))))
            (set_tx_cache txs (tracker m));
        tick := S (S (S (tick m)));
        calls := calls m ++ [CallTokenTx] |},
     Return txs).
Proof.
  unfold tx_hit, fresh, _get_token_transactions. intros Hmiss Hdata Hst Hres.
  unfold bind, ret, _is_cache_valid, time_time, get_self; simpl.
  rewrite Hmiss.
  unfold try_except, bind, upstream; simpl.
  rewrite Hdata, Hst; simpl. rewrite Hres.
  reflexivity.
Qed.

(** Any answer other than a well-formed success leaves the tracker as
    it was and yields the empty list. *)
Lemma tx_fail :
  tx_hit w m = false ->
  (forall data txs,
      etherscan_tokentx (w (S (tick m))) = Some data ->
      status data = Some "1" -> result data = Some txs -> False) ->
  _get_token_transactions w m =
    (record_call CallTokenTx (advance m), Return []).
Proof.
  unfold tx_hit, fresh, _get_token_transactions. intros Hmiss Hbad.
  unfold bind, ret, _is_cache_valid, time_time, get_self; simpl.
  rewrite Hmiss.
  unfold try_except, bind, upstream, raise, ret; simpl.
  destruct (etherscan_tokentx (w (S (tick m)))) as [data|] eqn:Hdata;
    [|reflexivity].
  destruct (status data) as [st|] eqn:Hst; [|reflexivity].
  destruct (String.eqb st "1") eqn:Hone; [|reflexivity].
  apply String.eqb_eq in Hone; subst st.
  destruct (result data) as [txs|] eqn:Hres; [|reflexivity].
  exfalso; eauto.
Qed.
End TransactionLog.

Section TokenInfo.
Variables (w : Oracle) (m : Machine).

Lemma info_hit_cached (d : Dict) :
  info_hit w m = Some d ->
  get_token_info w m = (advance m, Return d).
Proof.
  unfold info_hit, fresh, get_token_info. intros Hhit.
  unfold try_except, bind, ret, _is_cache_valid, time_time, get_self; simpl.
  now rewrite Hhit.
Qed.

Lemma info_fetch (symbol name : string) (total_supply : N) :
  info_hit w m = None ->
  chain_symbol (w (S (tick m))) = Some symbol ->
  chain_name (w (S (S (tick m)))) = Some name ->
  chain_totalSupply (w (S (S (S (tick m))))) = Some total_supply ->
  let info := [("symbol", VStr symbol);
               ("name", VStr name);
               ("totalSupply",
                VFloat (format_balance (tracker m) (Z.of_N total_supply)))] in
  get_token_info w m =
    ({| tracker :=
          set_last_cache_update (clock (w (S (S (S (S (tick m)))))))
            (set_token_info_cache info (tracker m));
        tick := S (S (S (S (S (tick m)))));
        calls := calls m ++ [CallSymbol; CallName; CallTotalSupply] |},
     Return info).
Proof.
  unfold info_hit, fresh, get_token_info. intros Hmiss Hs Hn Ht.
  unfold try_except, bind, ret, _is_cache_valid, time_time, get_self; simpl.
  rewrite Hmiss.
  unfold upstream; simpl. rewrite Hs, Hn, Ht; simpl.
  unfold _update_cache_timestamp, update_self, time_time, bind; simpl.
  unfold with_tracker, advance, record_call; simpl.
  now rewrite <- !app_assoc.
Qed.

Lemma info_fail :
  info_hit w m = None ->
  chain_symbol (w (S (tick m))) = None
  \/ chain_name (w (S (S (tick m)))) = None
  \/ chain_totalSupply (w (S (S (S (tick m))))) = None ->
  exists m', get_token_info w m = (m', Return [])
             /\ tracker m' = tracker m.
Proof.
  unfold info_hit, fresh, get_token_info. intros Hmiss Hbad.
  unfold try_except, bind, ret, _is_cache_valid, time_time, get_self; simpl.
  rewrite Hmiss.
  unfold upstream; simpl.
  destruct (chain_symbol (w (S (tick m)))); [|eauto].
  destruct (chain_name (w (S (S (tick m))))); [|eauto].
  destruct (chain_totalSupply (w (S (S (S (tick m)))))); [|eauto].
  destruct Hbad as [?|[?|?]]; discriminate.
Qed.
End TokenInfo.

(** ** Rules for triples *)

Section Rules.
Variable T : TokenTracker -> Prop.

Lemma spec_ret {A} (Q : A -> Prop) E (a : A) : Q a -> spec T Q E (ret a).
Proof. intros Ha w m Hm; simpl; auto. Qed.

Lemma spec_raise {A} (Q : A -> Prop) (E : Exn -> Prop) (e : Exn) :
  E e -> spec T Q E (raise e).
Proof. intros He w m Hm; simpl; auto. Qed.

Lemma spec_bind {A B} (Q : A -> Prop) (R : B -> Prop) E (c : M A) (k : A -> M B) :
  spec T Q E c -> (forall a, Q a -> spec T R E (k a)) -> spec T R E (bind c k).
Proof.
  intros Hc Hk w m Hm. unfold bind.
  specialize (Hc w m Hm). destruct (c w m) as [m' [a|e]].
  - destruct Hc as [Hm' Ha]. exact (Hk a Ha w m' Hm').
  - exact Hc.
Qed.

Lemma spec_try {A} (Q : A -> Prop) E E' (c : M A) (h : Exn -> M A) :
  spec T Q E' c -> (forall e, E' e -> spec T Q E (h e)) ->
  spec T Q E (try_except c h).
Proof.
  intros Hc Hh w m Hm. unfold try_except.
  specialize (Hc w m Hm). destruct (c w m) as [m' [a|e]].
  - exact Hc.
  - destruct Hc as [Hm' He]. exact (Hh e He w m' Hm').
Qed.

Lemma spec_weaken {A} (Q Q' : A -> Prop) (E E' : Exn -> Prop) (c : M A) :
  spec T Q E c -> (forall a, Q a -> Q' a) -> (forall e, E e -> E' e) ->
  spec T Q' E' c.
Proof.
  intros Hc HQ HE w m Hm. specialize (Hc w m Hm).
  destruct (c w m) as [m' [a|e]]; destruct Hc; auto.
Qed.

Lemma spec_for_each {A B} (I : B -> Prop) E (body : B -> A -> M B) (l : list A) :
  (forall acc x, I acc -> spec T I E (body acc x)) ->
  forall acc, I acc -> spec T I E (for_each l body acc).
Proof.
  intros Hbody. induction l as [|x l IH]; intros acc Hacc; simpl.
  - now apply spec_ret.
  - eapply spec_bind; [now apply Hbody|]. exact IH.
Qed.

Lemma spec_get_self E : spec T T E get_self.
Proof. intros w m Hm; simpl; auto. Qed.

Lemma spec_update_self E (f : TokenTracker -> TokenTracker) :
  (forall t, T t -> T (f t)) -> spec T any E (update_self f).
Proof. intros Hf w m Hm; simpl; split; [auto|exact I]. Qed.

Lemma spec_time_time E : spec T any E time_time.
Proof. intros w m Hm; simpl; split; [auto|exact I]. Qed.

Lemma spec_upstream {A} (E : Exn -> Prop) (c : Call) (answer : World -> option A) :
  E UpstreamError -> spec T any E (upstream c answer).
Proof.
  intros HE w m Hm; unfold upstream.
  destruct (answer (w (tick m))); simpl; split; auto; exact I.
Qed.

Hypothesis invariant : cache_invariant T.

Lemma spec_is_cache_valid E : spec T any E _is_cache_valid.
Proof.
  unfold _is_cache_valid.
  eapply spec_bind; [apply spec_time_time|intros now _].
  eapply spec_bind; [apply spec_get_self|intros self _].
  now apply spec_ret.
Qed.

Lemma spec_update_cache_timestamp E : spec T any E _update_cache_timestamp.
Proof.
  unfold _update_cache_timestamp.
  eapply spec_bind; [apply spec_time_time|intros now _].
  apply spec_update_self. intros t. apply (keeps_timestamp T invariant).
Qed.

Lemma spec_get_balance `{Host} (address : string) :
  spec T (balance_post T) any (get_balance address).
Proof.
  unfold get_balance, w3_to_checksum_address.
  eapply spec_bind with (Q := any).
  { destruct (to_checksum_address address);
      [now apply spec_ret | now apply spec_raise]. }
  intros a _.
  eapply spec_bind; [apply spec_is_cache_valid|intros valid _].
  eapply spec_bind; [apply spec_get_self|intros self Hself].
  destruct (if valid then _balance_cache self !! a else None) as [cached|] eqn:Hc.
  - apply spec_ret. right. exists self, a. split; [exact Hself|].
    destruct valid; [exact Hc|discriminate].
  - eapply spec_try with (E' := any); [|intros e _; apply spec_ret; now left].
    eapply spec_bind; [now apply spec_upstream|intros raw _].
    intros w m Hm.
    unfold bind, get_self, update_self, _update_cache_timestamp, time_time, ret;
      simpl.
    pose proof (keeps_timestamp T invariant _
                  (clock (w (tick m)))
                  (keeps_balance T invariant _ (tracker m) a raw Hm)) as Hkept.
    split; [exact Hkept|].
    right. eexists; exists a. split; [exact Hkept|].
    simpl. apply lookup_insert_eq.
Qed.
End Rules.

(** ** Every method keeps a cache invariant *)

Section Keeps.
Context `{Host}.
Variable T : TokenTracker -> Prop.
Hypothesis invariant : cache_invariant T.

Lemma keeps_of_spec {A} (Q : A -> Prop) (E : Exn -> Prop) (c : M A) :
  spec T Q E c -> keeps T c.
Proof. intros Hc. eapply spec_weaken; [exact Hc| |]; intros; exact I. Qed.

Lemma keeps_ret {A} (a : A) : keeps T (ret a).
Proof. now apply spec_ret. Qed.

Lemma keeps_raise {A} (e : Exn) : keeps T (@raise A e).
Proof. now apply spec_raise. Qed.

Lemma keeps_bind {A B} (c : M A) (k : A -> M B) :
  keeps T c -> (forall a, keeps T (k a)) -> keeps T (bind c k).
Proof. intros Hc Hk. eapply spec_bind; [exact Hc|]. intros a _. apply Hk. Qed.

Lemma keeps_try {A} (c : M A) (h : Exn -> M A) :
  keeps T c -> (forall e, keeps T (h e)) -> keeps T (try_except c h).
Proof. intros Hc Hh. eapply spec_try; [exact Hc|]. intros e _. apply Hh. Qed.

Lemma keeps_for_each {A B} (body : B -> A -> M B) (l : list A) (acc : B) :
  (forall acc x, keeps T (body acc x)) -> keeps T (for_each l body acc).
Proof.
  intros Hbody. apply (spec_for_each T any any); [|exact I].
  intros acc' x _. apply Hbody.
Qed.

Lemma keeps_get_self : keeps T get_self.
Proof. intros w m Hm; simpl; split; [exact Hm|exact I]. Qed.

Lemma keeps_upstream {A} (c : Call) (answer : World -> option A) :
  keeps T (upstream c answer).
Proof. now apply spec_upstream. Qed.

Lemma keeps_is_cache_valid : keeps T _is_cache_valid.
Proof. now apply spec_is_cache_valid. Qed.

Lemma keeps_update_cache_timestamp : keeps T _update_cache_timestamp.
Proof. now apply spec_update_cache_timestamp. Qed.

Lemma keeps_get_balance (address : string) : keeps T (get_balance address).
Proof. eapply keeps_of_spec. now apply spec_get_balance. Qed.

Create HintDb keeps.
#[local] Hint Resolve keeps_ret keeps_raise keeps_get_self keeps_upstream
  keeps_is_cache_valid keeps_update_cache_timestamp keeps_get_balance
  keeps_bind keeps_try keeps_for_each : keeps.
#[local] Hint Extern 1 (keeps _ (match ?x with _ => _ end)) => destruct x : keeps.
#[local] Hint Extern 1 (keeps _ (update_self _)) =>
  apply spec_update_self; intros ?;
  first [ apply (keeps_tx T invariant) | apply (keeps_info T invariant) ] : keeps.

Lemma keeps_get_balance_batch (l : list string) : keeps T (get_balance_batch l).
Proof. unfold get_balance_batch. auto 10 with keeps. Qed.

Lemma keeps_get_token_transactions : keeps T _get_token_transactions.
Proof. unfold _get_token_transactions. auto 20 with keeps. Qed.

Lemma keeps_get_top_holders (n : Z) : keeps T (get_top_holders n).
Proof.
  pose proof keeps_get_token_transactions.
  unfold get_top_holders. auto 20 with keeps.
Qed.

Lemma keeps_get_top_with_transactions (n : Z) :
  keeps T (get_top_with_transactions n).
Proof.
  pose proof keeps_get_token_transactions.
  unfold get_top_with_transactions. auto 20 with keeps.
Qed.

Lemma keeps_get_token_info : keeps T get_token_info.
Proof. unfold get_token_info. auto 20 with keeps. Qed.

Lemma keeps_get_token_stats : keeps T get_token_stats.
Proof.
  pose proof keeps_get_token_info. pose proof keeps_get_top_holders.
  unfold get_token_stats, truediv. auto 20 with keeps.
Qed.

Lemma keeps_get_address_history (address : string) (limit : Z) :
  keeps T (get_address_history address limit).
Proof.
  pose proof keeps_get_token_transactions.
  unfold get_address_history, w3_to_checksum_address. auto 20 with keeps.
Qed.

Lemma keeps_run_query (q : Query) : keeps T (run_query q).
Proof.
  destruct q; simpl; (apply keeps_bind; [|intros ?; apply keeps_ret]).
  - apply keeps_get_balance.
  - apply keeps_get_balance_batch.
  - apply keeps_get_top_holders.
  - apply keeps_get_top_with_transactions.
  - apply keeps_get_token_info.
  - apply keeps_get_token_stats.
  - apply keeps_get_address_history.
Qed.

Lemma reachable_invariant (w : Oracle) (d : N) (m : Machine) :
  T (init d) -> reachable w d m -> T (tracker m).
Proof.
  intros Hinit Hreach. induction Hreach as [|m q _ IH]; [exact Hinit|].
  pose proof (keeps_run_query q w m IH) as Hstep.
  destruct (run_query q w m) as [m' [[]|e]]; simpl; tauto.
Qed.
End Keeps.

(** ** Balances *)

Lemma format_balance_nonneg (self : TokenTracker) (raw : N) :
  (0 <= format_balance self (Z.of_N raw))%Q.
Proof.
  unfold format_balance.
  assert (Hpow : 0 < 10 ^ Z.of_N (decimals self)) by (apply Z.pow_pos_nonneg; lia).
  apply Qle_shift_div_l.
  - replace 0%Q with (inject_Z 0) by reflexivity. rewrite <- Zlt_Qlt. exact Hpow.
  - rewrite Qmult_0_l. replace 0%Q with (inject_Z 0) by reflexivity.
    rewrite <- Zle_Qle. lia.
Qed.

Lemma balance_invariant_kept (d : N) : cache_invariant (balance_invariant d).
Proof.
  split; unfold balance_invariant, cache_nonneg; simpl.
  - intros t self a raw [Hc Hd]; split; [|exact Hd].
    intros a' v. rewrite lookup_insert. case_decide.
    + intros [= <-]. apply format_balance_nonneg.
    + apply Hc.
  - intros t l Ht; exact Ht.
  - intros t d' Ht; exact Ht.
  - intros t now Ht; exact Ht.
Qed.

Lemma balance_invariant_init (d : N) : balance_invariant d (init d).
Proof.
  split; [|reflexivity]. intros a v; simpl. rewrite lookup_empty. discriminate.
Qed.

(** C7: from any machine that queries reach from a fresh tracker,
    [get_balance] returns a non-negative value and leaves [decimals] at
    the value read at construction; when the call returns after a
    [balanceOf] call that the chain answered with [raw], the value is
    [raw / 10^decimals]. *)
Theorem C7_balance_nonneg_and_scaled `{Host} (w : Oracle) (d : N)
    (m m' : Machine) (address : string) (v : Q) :
  reachable w d m ->
  get_balance address w m = (m', Return v) ->
  (0 <= v)%Q
  /\ decimals (tracker m') = d
  /\ (forall a raw,
        to_checksum_address address = Some a ->
        calls m' = calls m ++ [CallBalanceOf a] ->
        chain_balanceOf (w (S (tick m))) a = Some raw ->
        v = (inject_Z (Z.of_N raw) / inject_Z (10 ^ Z.of_N d))%Q).
Proof.
  intros Hreach Hrun.
  pose proof (reachable_invariant _ (balance_invariant_kept d) w d m
                (balance_invariant_init d) Hreach) as Hm.
  pose proof (spec_get_balance _ (balance_invariant_kept d) address w m Hm) as Hspec.
  rewrite Hrun in Hspec. destruct Hspec as [[Hc' Hd'] Hpost].
  split; [|split].
  - destruct Hpost as [->|(t & a & [Hc _] & Hv)]; [apply Qle_refl|].
    exact (Hc a v Hv).
  - exact Hd'.
  - intros a raw Hnorm Hcalls Hraw.
    destruct (balance_hit w m a) as [cached|] eqn:Hhit.
    + rewrite (get_balance_hit w m address a Hnorm cached Hhit) in Hrun.
      injection Hrun as <- _. simpl in Hcalls.
      apply (f_equal (@length Call)) in Hcalls. rewrite length_app in Hcalls.
      simpl in Hcalls. lia.
    + rewrite (get_balance_fetch w m address a Hnorm raw Hhit Hraw) in Hrun.
      injection Hrun as _ <-. unfold format_balance.
      destruct Hm as [_ ->]. reflexivity.
Qed.

(** C7, at the scenario of the specification: the balance of [addr2]
    asked of a fresh tracker. *)
Lemma C7_witness :
  let r := @get_balance example_host addr2 scenario_oracle (boot 6) in
  snd r = Return (5000000 # 1000000)%Q
  /\ (0 <= 5000000 # 1000000)%Q
  /\ decimals (tracker (fst r)) = 6%N.
Proof.
  destruct (@C7_balance_nonneg_and_scaled example_host scenario_oracle 6 (boot 6)
              (fst (@get_balance example_host addr2 scenario_oracle (boot 6)))
              addr2 (5000000 # 1000000)%Q) as (Hpos & Hdec & _).
  - apply reach_boot.
  - vm_compute. reflexivity.
  - split; [vm_compute; reflexivity|]. split; [exact Hpos|exact Hdec].
Defined.

(** ** Ranking *)

Section Sorting.
Context {A : Type}.
Variable key : A -> Q.

Lemma insert_desc_perm (x : A) (l : list A) : insert_desc key x l ≡ₚ x :: l.
Proof.
  induction l as [|y l IH]; simpl; [reflexivity|].
  destruct (lt (key x) (key y)); [|reflexivity].
  rewrite IH. apply Permutation_swap.
Qed.

Lemma sorted_desc_perm (l : list A) : sorted_desc key l ≡ₚ l.
Proof.
  induction l as [|x l IH]; simpl; [reflexivity|].
  rewrite insert_desc_perm. now rewrite IH.
Qed.

Lemma insert_desc_descending (x : A) (l : list A) :
  descending key l -> descending key (insert_desc key x l).
Proof.
  unfold descending.
  induction l as [|y l IH]; simpl; intros Hl.
  - repeat constructor.
  - apply StronglySorted_inv in Hl as [Hl Hy].
    destruct (lt (key x) (key y)) eqn:Hxy.
    + constructor; [now apply IH|].
      rewrite insert_desc_perm. constructor; [|exact Hy].
      apply lt_spec in Hxy. now apply Qlt_le_weak.
    + apply lt_false in Hxy.
      constructor; [now constructor|].
      constructor; [exact Hxy|].
      eapply Forall_impl; [exact Hy|]. intros z Hz; simpl in *.
      now apply Qle_trans with (key y).
Qed.

Lemma sorted_desc_descending (l : list A) : descending key (sorted_desc key l).
Proof.
  induction l as [|x l IH]; simpl; [constructor|].
  now apply insert_desc_descending.
Qed.

Lemma descending_take (n : nat) (l : list A) :
  descending key l -> descending key (take n l).
Proof.
  unfold descending. intros Hl. rewrite <- (take_drop n l) in Hl.
  now apply StronglySorted_app_1_l in Hl.
Qed.

Lemma slice_to_descending (n : Z) (l : list A) :
  descending key l -> descending key (slice_to n l).
Proof. unfold slice_to. destruct (n <? 0); apply descending_take. Qed.

Lemma slice_to_Forall (P : A -> Prop) (n : Z) (l : list A) :
  Forall P l -> Forall P (slice_to n l).
Proof. unfold slice_to. destruct (n <? 0); apply Forall_take. Qed.

Lemma slice_to_length (n : Z) (l : list A) :
  0 <= n -> Z.of_nat (length (slice_to n l)) <= n.
Proof.
  intros Hn. unfold slice_to.
  destruct (n <? 0) eqn:Hneg; [apply Z.ltb_lt in Hneg; lia|].
  rewrite length_take. lia.
Qed.
End Sorting.

Lemma trivial_invariant : cache_invariant any.
Proof. split; intros; exact I. Qed.

Lemma spec_any {A} (c : M A) : spec any any any c.
Proof. intros w m _. destruct (c w m) as [m' [a|e]]; split; exact I. Qed.

Lemma get_token_transactions_returns : spec any any none _get_token_transactions.
Proof.
  unfold _get_token_transactions.
  eapply spec_bind; [apply spec_is_cache_valid|intros valid _].
  eapply spec_bind with (Q := any); [apply spec_get_self|intros self _].
  destruct (valid && negb (bool_decide (_tx_cache self = [])));
    [now apply spec_ret|].
  eapply spec_try with (E' := any); [apply spec_any|intros e _; now apply spec_ret].
Qed.

Section TopHolders.
Context `{Host}.

Lemma get_top_holders_spec (n : Z) :
  0 < n ->
  spec any
    (fun holders =>
       Z.of_nat (length holders) <= n
       /\ descending snd holders
       /\ Forall qualifies holders)
    none (get_top_holders n).
Proof.
  intros Hn. unfold get_top_holders.
  eapply spec_bind; [apply get_token_transactions_returns|intros txs _].
  destruct txs as [|tx txs].
  { apply spec_ret. simpl. repeat split; [lia|constructor|constructor]. }
  eapply spec_bind with (Q := Forall qualifies).
  - apply spec_for_each; [|constructor].
    intros holders address Hholders.
    destruct (String.eqb address BURN_ADDRESS) eqn:Hburn; [now apply spec_ret|].
    apply String.eqb_neq in Hburn.
    eapply spec_try with (E' := any); [|intros e _; now apply spec_ret].
    eapply spec_bind with (Q := any); [apply spec_any|intros balance _].
    destruct (lt 0 balance) eqn:Hpos; [|now apply spec_ret].
    apply spec_ret. apply Forall_app; split; [exact Hholders|].
    constructor; [|constructor]. split; [exact Hburn|now apply lt_spec].
  - intros holders Hholders. apply spec_ret. split; [|split].
    + apply slice_to_length. lia.
    + apply slice_to_descending, sorted_desc_descending.
    + apply slice_to_Forall. now rewrite sorted_desc_perm.
Qed.

(** C2, as the code has it: for a positive [n], [get_top_holders n]
    returns at most [n] entries, in descending order of balance where
    equal balances may follow one another, none of them the burn address
    and none with a balance that is zero or less. *)
Theorem C2_top_holders_ranked (w : Oracle) (m : Machine) (n : Z) :
  0 < n ->
  exists m' holders,
    get_top_holders n w m = (m', Return holders)
    /\ Z.of_nat (length holders) <= n
    /\ descending snd holders
    /\ (forall address balance,
          (address, balance) ∈ holders ->
          address <> BURN_ADDRESS /\ (0 < balance)%Q).
Proof.
  intros Hn. pose proof (get_top_holders_spec n Hn w m I) as Hspec.
  destruct (get_top_holders n w m) as [m' [holders|e]].
  - destruct Hspec as (_ & Hlen & Hsorted & Hall).
    exists m', holders. repeat split; try assumption;
      rewrite Forall_forall in Hall; now apply (Hall (address, balance)).
  - destruct Hspec as [_ []].
Qed.
End TopHolders.

(** The ranking scenario of the specification. *)
Example top_holders_scenario :
  snd (@get_top_holders example_host 2 scenario_oracle (boot 6))
  = Return [(addr2, (5000000 # 1000000)%Q); (addr3, (1000000 # 1000000)%Q)].
Proof. vm_compute. reflexivity. Qed.

(** C2, at the scenario of the specification. *)
Lemma C2_witness :
  0 < 2
  /\ exists m' holders,
       @get_top_holders example_host 2 scenario_oracle (boot 6) = (m', Return holders)
       /\ Z.of_nat (length holders) <= 2
       /\ descending snd holders
       /\ (forall address balance,
             (address, balance) ∈ holders ->
             address <> BURN_ADDRESS /\ (0 < balance)%Q).
Proof.
  split; [lia|].
  apply (@C2_top_holders_ranked example_host scenario_oracle (boot 6) 2). lia.
Defined.

(** C2 as worded fails: two holders with the same balance are both
    listed, so the order is not strictly descending. *)
Lemma C2_counterexample :
  exists m' holders,
    @get_top_holders example_host 2 tie_oracle (boot 6) = (m', Return holders)
    /\ ~ strictly_descending snd holders.
Proof.
  eexists; eexists. split; [vm_compute; reflexivity|].
  unfold strictly_descending. intros Hs.
  apply StronglySorted_inv in Hs as [_ Hs].
  apply Forall_inv in Hs. simpl in Hs. revert Hs. apply Qlt_irrefl.
Qed.

(** ** Last activity *)

(** C3, on a log ordered newest first where the first balance lookup of
    [addr2] fails upstream and the next one succeeds: the entry of [addr2]
    carries the time of the older transfer (100), although the most recent
    transfer that touches [addr2] is the first of the log (200). *)
Theorem C3_older_transfer_recorded :
  StronglySorted (fun x y => tx_timeStamp y <= tx_timeStamp x) flaky_log
  /\ (tx_timeStamp <$> List.find (touches addr2) flaky_log) = Some 200
  /\ (exists m',
        @get_top_with_transactions example_host 10 flaky_oracle (boot 6)
        = (m', Return [(addr2, (6000000 # 1000000)%Q, utc_strftime 100)]))
  /\ utc_strftime 100 <> utc_strftime 200.
Proof.
  split; [|split; [|split]].
  - unfold flaky_log. repeat constructor; simpl; lia.
  - vm_compute. reflexivity.
  - eexists. vm_compute. reflexivity.
  - vm_compute. discriminate.
Qed.

(** ** Address history *)

Section History.
Context `{Host}.
Variables (self : TokenTracker) (a : string) (limit : Z).
Hypothesis limit_positive : 0 < limit.

Lemma history_loop_take (txs : list Tx) (acc : list HistoryEntry) :
  (length acc < Z.to_nat limit)%nat ->
  history_loop self a limit txs acc =
    acc ++ map (history_entry self a)
             (take (Z.to_nat limit - length acc) (List.filter (touches a) txs)).
Proof.
  revert acc. induction txs as [|tx rest IH]; intros acc Hacc; simpl.
  - rewrite take_nil. simpl. now rewrite app_nil_r.
  - destruct (touches a tx) eqn:Htouch.
    + rewrite length_app; simpl.
      destruct (limit <=? Z.of_nat (length acc + 1)) eqn:Hfull.
      * apply Z.leb_le in Hfull.
        replace (Z.to_nat limit - length acc)%nat with 1%nat by lia.
        reflexivity.
      * apply Z.leb_gt in Hfull.
        rewrite IH by (rewrite length_app; simpl; lia).
        rewrite length_app; simpl. rewrite <- app_assoc. simpl.
        replace (Z.to_nat limit - length acc)%nat
          with (S (Z.to_nat limit - (length acc + 1)))%nat by lia.
        reflexivity.
    + destruct (limit <=? Z.of_nat (length acc)) eqn:Hfull;
        [apply Z.leb_le in Hfull; lia|].
      now apply IH.
Qed.

Lemma history_loop_first_matches (txs : list Tx) :
  history_loop self a limit txs [] =
    map (history_entry self a) (take (Z.to_nat limit) (List.filter (touches a) txs)).
Proof.
  rewrite history_loop_take by (simpl; lia). simpl. now rewrite Nat.sub_0_r.
Qed.

(** Once [limit] matches are in, what follows in the log plays no part. *)
Lemma history_loop_stops (txs older : list Tx) :
  limit <= Z.of_nat (length (List.filter (touches a) txs)) ->
  history_loop self a limit (txs ++ older) [] = history_loop self a limit txs [].
Proof.
  intros Hfull. rewrite !history_loop_first_matches.
  rewrite List.filter_app, take_app_le by lia. reflexivity.
Qed.
End History.

Lemma get_address_history_returns `{Host} (address : string) (limit : Z) :
  spec any any none (get_address_history address limit).
Proof.
  unfold get_address_history.
  eapply spec_try with (E' := any); [apply spec_any|].
  intros e _. now apply spec_ret.
Qed.

(** The comparison of the code, of the lower-case forms of two strings,
    is equality up to the case of the letters. *)
Lemma nat_of_ascii_lower (c : ascii) :
  nat_of_ascii (ascii_lower c)
  = if (65 <=? nat_of_ascii c)%nat && (nat_of_ascii c <=? 90)%nat
    then (nat_of_ascii c + 32)%nat else nat_of_ascii c.
Proof.
  unfold ascii_lower.
  destruct ((65 <=? nat_of_ascii c)%nat && (nat_of_ascii c <=? 90)%nat) eqn:Hup;
    [|reflexivity].
  apply andb_true_iff in Hup as [_ Hle]. apply Nat.leb_le in Hle.
  apply nat_ascii_embedding. lia.
Qed.

Lemma lower_code_same (x y : nat) :
  ((if (65 <=? x)%nat && (x <=? 90)%nat then x + 32 else x)
   =? (if (65 <=? y)%nat && (y <=? 90)%nat then y + 32 else y))%nat
  = ((x =? y)%nat
     || (65 <=? x)%nat && (x <=? 90)%nat && (y =? x + 32)%nat
     || (65 <=? y)%nat && (y <=? 90)%nat && (x =? y + 32)%nat).
Proof.
  destruct (Nat.leb_spec 65 x), (Nat.leb_spec x 90), (Nat.leb_spec 65 y),
    (Nat.leb_spec y 90); simpl;
    repeat match goal with
      | |- context [(?a =? ?b)%nat] => destruct (Nat.eqb_spec a b)
      end; simpl; try reflexivity; lia.
Qed.

Lemma ascii_eqb_code (a b : ascii) :
  Ascii.eqb a b = (nat_of_ascii a =? nat_of_ascii b)%nat.
Proof.
  destruct (Ascii.eqb_spec a b) as [->|Hne].
  - now rewrite Nat.eqb_refl.
  - symmetry. apply Nat.eqb_neq. intros Hcode. apply Hne.
    rewrite <- (ascii_nat_embedding a), <- (ascii_nat_embedding b).
    now rewrite Hcode.
Qed.

Lemma ascii_lower_same_letter (c d : ascii) :
  Ascii.eqb (ascii_lower c) (ascii_lower d) = same_letter c d.
Proof. rewrite ascii_eqb_code, !nat_of_ascii_lower. apply lower_code_same. Qed.

Lemma lower_caseless (s t : string) :
  String.eqb (lower s) (lower t) = caseless_eqb s t.
Proof.
  revert t. induction s as [|c s IH]; intros [|d t]; simpl; try reflexivity.
  rewrite ascii_lower_same_letter, IH. now destruct (same_letter c d).
Qed.

Lemma touches_names (a : string) (tx : Tx) : touches a tx = names a tx.
Proof. unfold touches, names. rewrite !lower_caseless. apply orb_comm. Qed.

Lemma history_entry_record `{Host} (self : TokenTracker) (a : string) (tx : Tx) :
  history_entry self a tx = history_record (decimals self) a tx.
Proof.
  unfold history_entry, history_record, format_balance. cbv zeta.
  rewrite lower_caseless. now destruct (caseless_eqb (tx_to tx) a).
Qed.

Lemma history_loop_names `{Host} (self : TokenTracker) (a : string) (limit : Z)
    (txs : list Tx) :
  0 < limit ->
  history_loop self a limit txs [] =
    map (history_record (decimals self) a)
      (take (Z.to_nat limit) (List.filter (names a) txs)).
Proof.
  intros Hlimit. rewrite history_loop_first_matches by exact Hlimit.
  rewrite (List.filter_ext _ _ (touches_names a)).
  apply map_ext. intros tx. apply history_entry_record.
Qed.

(** C6: for an address that normalises to [a] and a positive [limit],
    [get_address_history] returns the entries of the first [limit]
    records of the fetched log whose sender or recipient is [a] up to
    the case of the letters (all of them when there are fewer), in the
    order of the log, each record shown as a receipt or a sending; and
    once [limit] such records have been met, the records that follow
    them play no part in the result. *)
Theorem C6_address_history_first_matches `{Host} (w : Oracle) (m : Machine)
    (address a : string) (limit : Z) :
  to_checksum_address address = Some a ->
  0 < limit ->
  exists m1 log,
    _get_token_transactions w m = (m1, Return log)
    /\ get_address_history address limit w m =
         (m1, Return (map (history_record (decimals (tracker m1)) a)
                        (take (Z.to_nat limit) (List.filter (names a) log))))
    /\ (forall newer older,
          log = newer ++ older ->
          limit <= Z.of_nat (length (List.filter (names a) newer)) ->
          get_address_history address limit w m =
            (m1, Return (map (history_record (decimals (tracker m1)) a)
                           (take (Z.to_nat limit)
                              (List.filter (names a) newer))))).
Proof.
  intros Hnorm Hlimit.
  pose proof (get_token_transactions_returns w m I) as Hlog.
  destruct (_get_token_transactions w m) as [m1 [log|e]] eqn:Hfetch;
    [|destruct Hlog as [_ []]].
  exists m1, log. split; [reflexivity|].
  assert (Hrun : get_address_history address limit w m =
                 (m1, Return (history_loop (tracker m1) a limit log []))).
  { unfold get_address_history, try_except, bind, w3_to_checksum_address.
    rewrite Hfetch, Hnorm. reflexivity. }
  split.
  - rewrite Hrun. now rewrite history_loop_names.
  - intros newer older -> Hfull. rewrite Hrun.
    rewrite history_loop_names by exact Hlimit.
    rewrite List.filter_app, take_app_le by lia. reflexivity.
Qed.

(** C6, at an account typed in lower case, on a log of four records of
    which the first, the third and the fourth name the account, with a
    limit of two. *)
Lemma C6_witness :
  known_checksum "0x51f1774249fc2b0c2603542ac6184ae1d048351d" = Some account1
  /\ 0 < 2
  /\ exists m1 log,
       _get_token_transactions account_oracle (boot 6) = (m1, Return log)
       /\ @get_address_history known_host
            "0x51f1774249fc2b0c2603542ac6184ae1d048351d" 2 account_oracle (boot 6) =
            (m1, Return (map (@history_record known_host
                                (decimals (tracker m1)) account1)
                           (take (Z.to_nat 2) (List.filter (names account1) log))))
       /\ (forall newer older,
             log = newer ++ older ->
             2 <= Z.of_nat (length (List.filter (names account1) newer)) ->
             @get_address_history known_host
               "0x51f1774249fc2b0c2603542ac6184ae1d048351d" 2 account_oracle (boot 6) =
               (m1, Return (map (@history_record known_host
                                   (decimals (tracker m1)) account1)
                              (take (Z.to_nat 2)
                                 (List.filter (names account1) newer))))).
Proof.
  split; [reflexivity|]. split; [lia|].
  apply (@C6_address_history_first_matches known_host account_oracle (boot 6)
           "0x51f1774249fc2b0c2603542ac6184ae1d048351d" account1 2);
    [reflexivity|lia].
Defined.

(** The history of that account, entry by entry: the receipt of the
    newest record and the sending of the third; the second record names
    other addresses and the fourth comes after the limit. *)
Lemma account_history_entries :
  snd (@get_address_history known_host
         "0x51f1774249fc2b0c2603542ac6184ae1d048351d" 2 account_oracle (boot 6))
  = Return
      [ {| h_type := "receive";
           h_counterparty := "0x4830af4ab9cd9e381602ae50f71ae481a7727f7c";
           h_amount := format_balance (init 6) 3000000;
           h_timestamp := "1970-01-01 00:06:40" |};
        {| h_type := "send";
           h_counterparty := addr1;
           h_amount := format_balance (init 6) 1000000;
           h_timestamp := "1970-01-01 00:03:20" |} ]
  /\ List.filter (names account1) account_log
     = [ {| tx_from := "0x4830af4ab9cd9e381602ae50f71ae481a7727f7c";
            tx_to := "0x51f1774249fc2b0c2603542ac6184ae1d048351d";
            tx_value := 3000000; tx_timeStamp := 400 |};
         {| tx_from := "0x51f1774249fc2b0c2603542ac6184ae1d048351d";
            tx_to := addr1;
            tx_value := 1000000; tx_timeStamp := 200 |};
         {| tx_from := addr2;
            tx_to := "0x51f1774249fc2b0c2603542ac6184ae1d048351d";
            tx_value := 2000000; tx_timeStamp := 100 |} ].
Proof. split; vm_compute; reflexivity. Qed.

(** ** Parameter checks of the handlers *)

(** C5: a count that is zero or less is refused with status 400 by
    [api_get_top] and [api_get_top_with_transactions], and nothing is
    fetched; [api_address_history] answers the same limit with status
    200. *)
Theorem C5_history_limit_not_checked `{Host} (w : Oracle) (m : Machine)
    (address : string) (n : Z) :
  n <= 0 ->
  address <> "" ->
  api_get_top (Some n) w m = (m, Return (error "Parameter 'n' must be positive"))
  /\ api_get_top_with_transactions (Some n) w m
     = (m, Return (error "Parameter 'n' must be positive"))
  /\ exists m' body,
       api_address_history (Some address) (Some n) w m = (m', Return (body, 200)).
Proof.
  intros Hn Haddr.
  assert (Hle : (n <=? 0) = true) by now apply Z.leb_le.
  split; [|split].
  - unfold api_get_top, guarded, try_except; simpl. now rewrite Hle.
  - unfold api_get_top_with_transactions, guarded, try_except; simpl.
    now rewrite Hle.
  - unfold api_address_history; simpl.
    apply String.eqb_neq in Haddr. rewrite Haddr.
    pose proof (get_address_history_returns address n w m I) as Hrun.
    unfold guarded, try_except, bind.
    destruct (get_address_history address n w m) as [m' [history|e]];
      [|destruct Hrun as [_ []]].
    eexists; eexists. reflexivity.
Qed.

(** C5, at a limit of zero on the scenario of the specification. *)
Lemma C5_witness :
  0 <= 0
  /\ addr2 <> ""
  /\ @api_get_top example_host (Some 0) scenario_oracle (boot 6)
     = (boot 6, Return (error "Parameter 'n' must be positive"))
  /\ @api_get_top_with_transactions example_host (Some 0) scenario_oracle (boot 6)
     = (boot 6, Return (error "Parameter 'n' must be positive"))
  /\ exists m' body,
       @api_address_history example_host (Some addr2) (Some 0) scenario_oracle (boot 6)
       = (m', Return (body, 200)).
Proof.
  split; [lia|]. split; [discriminate|].
  apply (@C5_history_limit_not_checked example_host scenario_oracle (boot 6) addr2 0);
    [lia|discriminate].
Defined.

(** With a limit of zero the history handler even delivers a record. *)
Example api_address_history_limit_zero :
  snd (@api_address_history example_host (Some addr2) (Some 0) scenario_oracle (boot 6))
  = Return
      (JObject
         [("address", JStr addr2);
          ("transactions",
           JList [JObject [("type", JStr "receive");
                           ("counterparty", JStr addr1);
                           ("amount", JFloat (5000000 # 1000000));
                           ("timestamp", JStr "1970-01-01 00:03:20")]])],
       200).
Proof. vm_compute. reflexivity. Qed.

(** ** Token statistics *)

Lemma dict_get_set_eq (k : string) (v : Value) (d : Dict) :
  dict_get k (dict_set k v d) = Some v.
Proof.
  induction d as [|[k' v'] d IH]; simpl.
  - now rewrite String.eqb_refl.
  - destruct (String.eqb k' k) eqn:Hk; simpl; now rewrite Hk.
Qed.

Lemma dict_get_set_ne (k k' : string) (v : Value) (d : Dict) :
  k <> k' -> dict_get k (dict_set k' v d) = dict_get k d.
Proof.
  intros Hne. induction d as [|[k0 v0] d IH]; simpl.
  - destruct (String.eqb k' k) eqn:Hk; [|reflexivity].
    apply String.eqb_eq in Hk. congruence.
  - destruct (String.eqb k0 k') eqn:Hk0; simpl.
    + apply String.eqb_eq in Hk0; subst k0.
      destruct (String.eqb k' k) eqn:Hk; [|reflexivity].
      apply String.eqb_eq in Hk. congruence.
    + destruct (String.eqb k0 k); [reflexivity|exact IH].
Qed.

Lemma get_token_info_returns : spec any any none get_token_info.
Proof.
  unfold get_token_info.
  eapply spec_try with (E' := any); [apply spec_any|].
  intros e _. now apply spec_ret.
Qed.

Lemma truediv_raises (a : Q) (b : Z) (w : Oracle) (m : Machine) (e : Exn) :
  snd (truediv a b w m) = Raise e <-> b = 0 /\ e = ZeroDivisionError.
Proof.
  unfold truediv. destruct (b =? 0) eqn:Hb; simpl.
  - apply Z.eqb_eq in Hb. split; [intros [= <-]; auto|intros [_ ->]; reflexivity].
  - apply Z.eqb_neq in Hb. split; [discriminate|intros [? _]; contradiction].
Qed.

(** C8: [get_token_stats] always returns the full dict, so no division
    fault is caught on the way; with no qualifying holder
    ['average_balance'] is the int 0, and otherwise it is the quotient by
    the number of holders, which is then positive. *)
Theorem C8_average_without_holders `{Host} (w : Oracle) (m : Machine) :
  exists m1 info m2 holders stats,
    get_token_info w m = (m1, Return info)
    /\ get_top_holders 100 w m1 = (m2, Return holders)
    /\ get_token_stats w m = (m2, Return stats)
    /\ dict_get "unique_holders" stats = Some (VInt (Z.of_nat (length holders)))
    /\ (holders = [] -> dict_get "average_balance" stats = Some (VInt 0))
    /\ (holders <> [] ->
        0 < Z.of_nat (length holders)
        /\ dict_get "average_balance" stats
           = Some (VFloat (foldl Qplus 0 (map snd holders)
                           / inject_Z (Z.of_nat (length holders)))%Q)).
Proof.
  pose proof (get_token_info_returns w m I) as Hinfo.
  destruct (get_token_info w m) as [m1 [info|e]] eqn:Einfo;
    [|destruct Hinfo as [_ []]].
  pose proof (get_top_holders_spec 100 ltac:(lia) w m1 I) as Hholders.
  destruct (get_top_holders 100 w m1) as [m2 [holders|e]] eqn:Eholders;
    [|destruct Hholders as [_ []]].
  exists m1, info, m2, holders.
  unfold get_token_stats, try_except, bind. rewrite Einfo, Eholders.
  destruct holders as [|h holders].
  - eexists. split; [reflexivity|]. split; [reflexivity|].
    split; [simpl; reflexivity|].
    split; [rewrite dict_get_set_ne by discriminate;
            rewrite dict_get_set_ne by discriminate;
            apply dict_get_set_eq|].
    split; [intros _; apply dict_get_set_eq|intros Hne; contradiction].
  - assert (Hpos : (0 <? Z.of_nat (length (h :: holders))) = true)
      by (apply Z.ltb_lt; simpl; lia).
    rewrite Hpos. unfold truediv.
    assert (Hnz : (Z.of_nat (length (h :: holders)) =? 0) = false)
      by (apply Z.eqb_neq; simpl; lia).
    rewrite Hnz. cbn [ret].
    eexists. split; [reflexivity|]. split; [reflexivity|].
    split; [reflexivity|].
    split; [rewrite dict_get_set_ne by discriminate;
            rewrite dict_get_set_ne by discriminate;
            apply dict_get_set_eq|].
    split; [discriminate|intros _].
    split; [simpl; lia|apply dict_get_set_eq].
Qed.

(** With no transfer indexed, the statistics report no holder and an
    average of 0. *)
Example stats_without_holders :
  snd (@get_token_stats example_host empty_log_oracle (boot 6))
  = Return [("symbol", VStr "TKN"); ("name", VStr "Token");
            ("totalSupply", VFloat (1000000000000 # 1000000));
            ("unique_holders", VInt 0); ("total_held", VInt 0);
            ("average_balance", VInt 0)].
Proof. vm_compute. reflexivity. Qed.

(** ** Upstream failures *)

Lemma get_balance_raises `{Host} (w : Oracle) (m : Machine) (address : string)
    (e : Exn) :
  snd (get_balance address w m) = Raise e ->
  to_checksum_address address = None.
Proof.
  destruct (to_checksum_address address) as [a|] eqn:Hnorm; [|reflexivity].
  destruct (balance_hit w m a) as [v|] eqn:Hhit.
  - rewrite (get_balance_hit w m address a Hnorm v Hhit). discriminate.
  - destruct (chain_balanceOf (w (S (tick m))) a) as [raw|] eqn:Hraw.
    + rewrite (get_balance_fetch w m address a Hnorm raw Hhit Hraw). discriminate.
    + rewrite (get_balance_fail w m address a Hnorm Hhit Hraw). discriminate.
Qed.

(** C4: an upstream failure inside a resolver is answered with a zero or
    empty value and never raised to the caller. A balance lookup whose
    [balanceOf] call fails returns 0; a transaction-log fetch that fails,
    or whose envelope lacks [status] or [result], returns the empty list;
    a token-info fetch in which one of the three calls fails returns the
    empty dict. In each case the tracker is left as it was. The log and
    token-info reads raise nothing at all, and [get_balance] raises only
    for an address that does not normalise. *)
Theorem C4_upstream_failures_degrade `{Host} (w : Oracle) (m : Machine) :
  (forall address a,
      to_checksum_address address = Some a ->
      balance_hit w m a = None ->
      chain_balanceOf (w (S (tick m))) a = None ->
      exists m', get_balance address w m = (m', Return 0%Q)
                 /\ tracker m' = tracker m)
  /\ (tx_hit w m = false ->
      etherscan_tokentx (w (S (tick m))) = None
      \/ (exists data, etherscan_tokentx (w (S (tick m))) = Some data
                       /\ (status data = None \/ result data = None)) ->
      exists m', _get_token_transactions w m = (m', Return [])
                 /\ tracker m' = tracker m)
  /\ (info_hit w m = None ->
      chain_symbol (w (S (tick m))) = None
      \/ chain_name (w (S (S (tick m)))) = None
      \/ chain_totalSupply (w (S (S (S (tick m))))) = None ->
      exists m', get_token_info w m = (m', Return [])
                 /\ tracker m' = tracker m)
  /\ (forall e, snd (_get_token_transactions w m) <> Raise e)
  /\ (forall e, snd (get_token_info w m) <> Raise e)
  /\ (forall address e,
        snd (get_balance address w m) = Raise e ->
        to_checksum_address address = None).
Proof.
  repeat apply conj.
  - intros address a Hnorm Hmiss Hfail.
    rewrite (get_balance_fail w m address a Hnorm Hmiss Hfail).
    eexists; split; reflexivity.
  - intros Hmiss Hbad. rewrite (tx_fail w m Hmiss).
    + eexists; split; reflexivity.
    + intros data txs Hdata Hst Hres.
      destruct Hbad as [Hnone|(data' & Hdata' & [Hs|Hr])]; congruence.
  - intros Hmiss Hbad. exact (info_fail w m Hmiss Hbad).
  - intros e He. pose proof (get_token_transactions_returns w m I) as Hs.
    destruct (_get_token_transactions w m) as [m' [l|e']]; [discriminate|].
    destruct Hs as [_ []].
  - intros e He. pose proof (get_token_info_returns w m I) as Hs.
    destruct (get_token_info w m) as [m' [l|e']]; [discriminate|].
    destruct Hs as [_ []].
  - intros address e. apply get_balance_raises.
Qed.

(** C4, while every upstream call fails. *)
Lemma C4_witness :
  (exists m', @get_balance example_host addr1 outage_oracle (boot 6) = (m', Return 0%Q)
              /\ tracker m' = tracker (boot 6))
  /\ (exists m', _get_token_transactions outage_oracle (boot 6) = (m', Return [])
                 /\ tracker m' = tracker (boot 6))
  /\ (exists m', get_token_info outage_oracle (boot 6) = (m', Return [])
                 /\ tracker m' = tracker (boot 6)).
Proof.
  destruct (@C4_upstream_failures_degrade example_host outage_oracle (boot 6))
    as (Hbalance & Hlog & Hinfo & _).
  split; [|split].
  - apply (Hbalance addr1 addr1); reflexivity.
  - apply Hlog; [reflexivity|left; reflexivity].
  - apply Hinfo; [reflexivity|left; reflexivity].
Defined.

(** ** The transaction log and its cache *)

(** A read of the log that misses the cache issues one upstream call. *)
Lemma tx_miss_calls (w : Oracle) (m : Machine) :
  tx_hit w m = false ->
  calls (fst (_get_token_transactions w m)) = calls m ++ [CallTokenTx].
Proof.
  intros Hm.
  destruct (etherscan_tokentx (w (S (tick m)))) as [data|] eqn:Hdata.
  - destruct (status data) as [st|] eqn:Hst.
    + destruct (String.eqb st "1") eqn:Hone.
      * apply String.eqb_eq in Hone; subst st.
        destruct (result data) as [txs|] eqn:Hres.
        -- now rewrite (tx_fetch w m txs data Hm Hdata Hst Hres).
        -- rewrite (tx_fail w m Hm); [reflexivity|]. intros; congruence.
      * rewrite (tx_fail w m Hm); [reflexivity|].
        intros d t Hd Hs _. rewrite Hdata in Hd. injection Hd as <-.
        rewrite Hst in Hs. injection Hs as ->. discriminate.
    + rewrite (tx_fail w m Hm); [reflexivity|]. intros; congruence.
  - rewrite (tx_fail w m Hm); [reflexivity|]. intros; congruence.
Qed.

(** C10: the transaction log is served from the cache only when the
    stored log is non-empty. With an empty stored log, as at start or
    after a fetch that stored the empty list, the upstream provider is
    called whatever the clock says; and a call that issues no upstream
    request found a non-empty log, which it returns. *)
Theorem C10_empty_log_is_refetched (w : Oracle) (m : Machine) :
  (tx_hit w m = true -> _tx_cache (tracker m) <> [])
  /\ (_tx_cache (tracker m) = [] ->
      calls (fst (_get_token_transactions w m)) = calls m ++ [CallTokenTx])
  /\ (calls (fst (_get_token_transactions w m)) = calls m ->
      _tx_cache (tracker m) <> []
      /\ snd (_get_token_transactions w m) = Return (_tx_cache (tracker m))).
Proof.
  assert (Hhit : tx_hit w m = true -> _tx_cache (tracker m) <> []).
  { unfold tx_hit. intros Hh Hnil. rewrite Hnil in Hh.
    rewrite bool_decide_eq_true_2 in Hh by reflexivity.
    now rewrite andb_false_r in Hh. }
  pose proof (tx_miss_calls w m) as Hmiss.
  split; [exact Hhit|]. split.
  - intros Hnil. apply Hmiss.
    destruct (tx_hit w m) eqn:Hh; [|reflexivity].
    exfalso; apply Hhit; [reflexivity|exact Hnil].
  - intros Hcalls. destruct (tx_hit w m) eqn:Hh.
    + split; [now apply Hhit|]. now rewrite (tx_hit_cached w m Hh).
    + rewrite (Hmiss eq_refl) in Hcalls.
      apply (f_equal (@length Call)) in Hcalls. rewrite length_app in Hcalls.
      simpl in Hcalls. lia.
Qed.

(** C10, right after a fetch that stored the empty list: the timestamp is
    fresh, the stored log is empty, and the next read calls upstream
    again. *)
Lemma C10_witness :
  let m1 := fst (_get_token_transactions empty_log_oracle (boot 6)) in
  fresh empty_log_oracle m1 = true
  /\ _tx_cache (tracker m1) = []
  /\ calls (fst (_get_token_transactions empty_log_oracle m1))
     = calls m1 ++ [CallTokenTx].
Proof.
  split; [vm_compute; reflexivity|]. split; [vm_compute; reflexivity|].
  apply (C10_empty_log_is_refetched empty_log_oracle
           (fst (_get_token_transactions empty_log_oracle (boot 6)))).
  vm_compute. reflexivity.
Defined.

(** ** One timestamp for every category *)

Lemma fresh_spec (w : Oracle) (m : Machine) :
  fresh w m = true <-> shared_fresh w m.
Proof. apply lt_spec. Qed.

Section SharedTimestamp.
Context `{Host}.
Variables (w : Oracle) (m : Machine).

(** After a fetch, the reads of a machine whose clock is within the
    lifetime of the new timestamp are served from what the tracker
    holds. *)
Lemma hits_while_fresh (t : TokenTracker) (w' : Oracle) (m2 : Machine) :
  tracker m2 = t ->
  (clock (w' (tick m2)) - _last_cache_update t < _cache_lifetime t)%Q ->
  (forall address a v,
      to_checksum_address address = Some a ->
      _balance_cache t !! a = Some v ->
      get_balance address w' m2 = (advance m2, Return v))
  /\ (_tx_cache t <> [] ->
      _get_token_transactions w' m2 = (advance m2, Return (_tx_cache t)))
  /\ (forall d,
        truthy_info (_token_info_cache t) = Some d ->
        get_token_info w' m2 = (advance m2, Return d)).
Proof.
  intros <- Hfresh.
  assert (Hf : fresh w' m2 = true) by now apply fresh_spec.
  split; [|split].
  - intros address a v Hnorm Hv. apply (get_balance_hit w' m2 address a Hnorm).
    unfold balance_hit. now rewrite Hf.
  - intros Hne. rewrite <- (tx_hit_cached w' m2); [reflexivity|].
    unfold tx_hit. rewrite Hf. simpl.
    now rewrite bool_decide_eq_false_2.
  - intros d Hd. apply info_hit_cached. unfold info_hit. now rewrite Hf.
Qed.

(** C9: a successful fetch of any category sets the one shared timestamp
    to the clock reading that ends the fetch. From then on, while the
    clock is within the lifetime of that timestamp, the entries that the
    tracker held before the fetch in every other category are returned
    from the cache with no upstream call, whenever they had been
    stored. *)
Theorem C9_one_timestamp_for_all (cat : Category) (m1 : Machine) :
  fetched w m cat m1 ->
  _last_cache_update (tracker m1) = clock (w (Nat.pred (tick m1)))
  /\ _cache_lifetime (tracker m1) = _cache_lifetime (tracker m)
  /\ forall w' m2,
       tracker m2 = tracker m1 ->
       (clock (w' (tick m2)) - _last_cache_update (tracker m1)
        < _cache_lifetime (tracker m1))%Q ->
       (forall address a v,
           to_checksum_address address = Some a ->
           cat <> BalanceOf a ->
           _balance_cache (tracker m) !! a = Some v ->
           get_balance address w' m2 = (advance m2, Return v))
       /\ (cat <> TransactionLog ->
           _tx_cache (tracker m) <> [] ->
           _get_token_transactions w' m2
           = (advance m2, Return (_tx_cache (tracker m))))
       /\ (cat <> TokenInfo ->
           forall d,
             truthy_info (_token_info_cache (tracker m)) = Some d ->
             get_token_info w' m2 = (advance m2, Return d)).
Proof.
  intros Hfetched.
  destruct Hfetched as [address a raw Hnorm Hmiss Hraw
                       |data txs Hmiss Hdata Hst Hres
                       |symbol name total Hmiss Hs Hn Ht].
  - rewrite (get_balance_fetch w m address a Hnorm raw Hmiss Hraw). simpl.
    split; [reflexivity|]. split; [reflexivity|].
    intros w' m2 Hsame Hfresh.
    destruct (hits_while_fresh _ w' m2 Hsame Hfresh) as (Hb & Hl & Hi).
    split; [|split].
    + intros address' a' v Hnorm' Hother Hv. apply (Hb address' a' v Hnorm').
      simpl. rewrite lookup_insert_ne; [exact Hv|]. congruence.
    + intros _. exact Hl.
    + intros _. exact Hi.
  - rewrite (tx_fetch w m txs data Hmiss Hdata Hst Hres). simpl.
    split; [reflexivity|]. split; [reflexivity|].
    intros w' m2 Hsame Hfresh.
    destruct (hits_while_fresh _ w' m2 Hsame Hfresh) as (Hb & Hl & Hi).
    split; [|split].
    + intros address' a' v Hnorm' _ Hv. exact (Hb address' a' v Hnorm' Hv).
    + intros Hcat; contradiction.
    + intros _. exact Hi.
  - rewrite (info_fetch w m symbol name total Hmiss Hs Hn Ht). simpl.
    split; [reflexivity|]. split; [reflexivity|].
    intros w' m2 Hsame Hfresh.
    destruct (hits_while_fresh _ w' m2 Hsame Hfresh) as (Hb & Hl & Hi).
    split; [|split].
    + intros address' a' v Hnorm' _ Hv. exact (Hb address' a' v Hnorm' Hv).
    + intros _. exact Hl.
    + intros Hcat; contradiction.
Qed.
End SharedTimestamp.

(** C9, with two balance lookups: [addr1] is stored at time 1000, the
    fetch of [addr2] at time 1290 resets the timestamp, and at time 1500
    the entry of [addr1] is still served from the cache. *)
Lemma C9_witness :
  let w := shared_clock_oracle in
  let m := fst (@get_balance example_host addr1 w (boot 6)) in
  let m1 := fst (@get_balance example_host addr2 w m) in
  @fetched example_host w m (BalanceOf addr2) m1
  /\ _last_cache_update (tracker m1) = 1290%Q
  /\ clock (w (tick m1)) = 1500%Q
  /\ @get_balance example_host addr1 w m1
     = (advance m1, Return (5000000 # 1000000)%Q).
Proof.
  cbv zeta.
  assert (Hfetched :
    @fetched example_host shared_clock_oracle
      (fst (@get_balance example_host addr1 shared_clock_oracle (boot 6)))
      (BalanceOf addr2)
      (fst (@get_balance example_host addr2 shared_clock_oracle
              (fst (@get_balance example_host addr1 shared_clock_oracle (boot 6)))))).
  { apply (@fetched_balance example_host shared_clock_oracle _ addr2 addr2 1000000%N);
      vm_compute; reflexivity. }
  split; [exact Hfetched|].
  destruct (@C9_one_timestamp_for_all example_host shared_clock_oracle _ _ _ Hfetched)
    as (_ & _ & Hhits).
  split; [vm_compute; reflexivity|]. split; [vm_compute; reflexivity|].
  destruct (Hhits shared_clock_oracle _ eq_refl) as (Hbalance & _ & _).
  - vm_compute; reflexivity.
  - apply (Hbalance addr1 addr1); [reflexivity|discriminate|vm_compute; reflexivity].
Defined.

(** ** Freshness of a cached read *)

(** C1 as worded fails: the entry of [addr1] is fetched at time 1000 and
    never again; the fetch of [addr2] at time 1290 resets the shared
    timestamp; at time 1500 the entry of [addr1] is not fresh by its own
    refresh, yet the read returns the cached 5 without an upstream call,
    while the chain holds 7. *)
Lemma C1_counterexample :
  let w := shared_clock_oracle in
  let m1 := fst (@get_balance example_host addr1 w (boot 6)) in
  let m2 := fst (@get_balance example_host addr2 w m1) in
  calls m1 = [CallBalanceOf addr1]
  /\ _last_cache_update (tracker m1) = 1000%Q
  /\ calls m2 = [CallBalanceOf addr1; CallBalanceOf addr2]
  /\ clock (w (tick m2)) = 1500%Q
  /\ ~ entry_fresh 1500 1000 (_cache_lifetime (tracker m2))
  /\ @get_balance example_host addr1 w m2
     = (advance m2, Return (5000000 # 1000000)%Q)
  /\ chain_balanceOf (w (S (tick m2))) addr1 = Some 7000000%N.
Proof.
  cbv zeta. repeat apply conj; try (vm_compute; reflexivity).
  vm_compute. intros Hlt. discriminate Hlt.
Qed.

Lemma not_fresh (w : Oracle) (m : Machine) :
  ~ shared_fresh w m -> fresh w m = false.
Proof.
  intros Hn. destruct (fresh w m) eqn:Hf; [|reflexivity].
  now apply fresh_spec in Hf.
Qed.

Lemma info_miss_calls (w : Oracle) (m : Machine) :
  info_hit w m = None ->
  exists rest, calls (fst (get_token_info w m)) = calls m ++ CallSymbol :: rest.
Proof.
  unfold info_hit, fresh, get_token_info. intros Hmiss.
  unfold try_except, bind, ret, _is_cache_valid, time_time, get_self; simpl.
  rewrite Hmiss. unfold upstream; simpl.
  destruct (chain_symbol (w (S (tick m)))); [|exists []; reflexivity].
  destruct (chain_name (w (S (S (tick m)))));
    [|exists [CallName]; simpl; now rewrite <- app_assoc].
  destruct (chain_totalSupply (w (S (S (S (tick m))))));
    [|exists [CallName; CallTotalSupply]; simpl; now rewrite <- !app_assoc].
  exists [CallName; CallTotalSupply]. simpl.
  unfold _update_cache_timestamp, update_self, time_time, bind; simpl.
  now rewrite <- !app_assoc.
Qed.

(** C1, as the code has it: a read returns the cached value, with no
    upstream call, exactly when the one shared timestamp is less than the
    lifetime before the clock reading of that read and an entry is held
    (for the log a non-empty one); otherwise it calls upstream, and when
    the fetch succeeds it stores the result, sets the shared timestamp to
    the clock reading that follows, and returns the result. *)
Theorem C1_shared_timestamp_freshness `{Host} (w : Oracle) (m : Machine) :
  (forall address a,
      to_checksum_address address = Some a ->
      (forall v,
          shared_fresh w m ->
          _balance_cache (tracker m) !! a = Some v ->
          get_balance address w m = (advance m, Return v))
      /\ (~ shared_fresh w m \/ _balance_cache (tracker m) !! a = None ->
          calls (fst (get_balance address w m)) = calls m ++ [CallBalanceOf a]
          /\ forall raw,
               chain_balanceOf (w (S (tick m))) a = Some raw ->
               let v := format_balance (tracker m) (Z.of_N raw) in
               exists m',
                 get_balance address w m = (m', Return v)
                 /\ _balance_cache (tracker m') !! a = Some v
                 /\ _last_cache_update (tracker m') = clock (w (S (S (tick m))))))
  /\ ((shared_fresh w m ->
       _tx_cache (tracker m) <> [] ->
       _get_token_transactions w m = (advance m, Return (_tx_cache (tracker m))))
      /\ (~ shared_fresh w m \/ _tx_cache (tracker m) = [] ->
          calls (fst (_get_token_transactions w m)) = calls m ++ [CallTokenTx]
          /\ forall data txs,
               etherscan_tokentx (w (S (tick m))) = Some data ->
               status data = Some "1" ->
               result data = Some txs ->
               exists m',
                 _get_token_transactions w m = (m', Return txs)
                 /\ _tx_cache (tracker m') = txs
                 /\ _last_cache_update (tracker m') = clock (w (S (S (tick m))))))
  /\ ((forall d,
          shared_fresh w m ->
          truthy_info (_token_info_cache (tracker m)) = Some d ->
          get_token_info w m = (advance m, Return d))
      /\ (~ shared_fresh w m \/ truthy_info (_token_info_cache (tracker m)) = None ->
          (exists rest,
              calls (fst (get_token_info w m)) = calls m ++ CallSymbol :: rest)
          /\ forall symbol name total_supply,
               chain_symbol (w (S (tick m))) = Some symbol ->
               chain_name (w (S (S (tick m)))) = Some name ->
               chain_totalSupply (w (S (S (S (tick m))))) = Some total_supply ->
               exists m' info,
                 get_token_info w m = (m', Return info)
                 /\ _token_info_cache (tracker m') = Some info
                 /\ _last_cache_update (tracker m')
                    = clock (w (S (S (S (S (tick m)))))))).
Proof.
  split; [|split].
  - intros address a Hnorm. split.
    + intros v Hfresh Hv. apply (get_balance_hit w m address a Hnorm).
      unfold balance_hit. apply fresh_spec in Hfresh. now rewrite Hfresh.
    + intros Hmiss.
      assert (Hhit : balance_hit w m a = None).
      { unfold balance_hit. destruct Hmiss as [Hstale|Habsent].
        - now rewrite (not_fresh w m Hstale).
        - rewrite Habsent. now destruct (fresh w m). }
      split.
      * destruct (chain_balanceOf (w (S (tick m))) a) as [raw|] eqn:Hraw.
        -- now rewrite (get_balance_fetch w m address a Hnorm raw Hhit Hraw).
        -- now rewrite (get_balance_fail w m address a Hnorm Hhit Hraw).
      * intros raw Hraw v. eexists. split.
        -- apply (get_balance_fetch w m address a Hnorm raw Hhit Hraw).
        -- simpl. split; [apply lookup_insert_eq|reflexivity].
  - split.
    + intros Hfresh Hne. apply tx_hit_cached. unfold tx_hit.
      apply fresh_spec in Hfresh. rewrite Hfresh. simpl.
      now rewrite bool_decide_eq_false_2.
    + intros Hmiss.
      assert (Hhit : tx_hit w m = false).
      { unfold tx_hit. destruct Hmiss as [Hstale|Hnil].
        - now rewrite (not_fresh w m Hstale).
        - rewrite bool_decide_eq_true_2 by exact Hnil. apply andb_false_r. }
      split.
      * now apply tx_miss_calls.
      * intros data txs Hdata Hst Hres. eexists. split.
        -- apply (tx_fetch w m txs data Hhit Hdata Hst Hres).
        -- simpl. split; reflexivity.
  - split.
    + intros d Hfresh Hd. apply info_hit_cached. unfold info_hit.
      apply fresh_spec in Hfresh. now rewrite Hfresh.
    + intros Hmiss.
      assert (Hhit : info_hit w m = None).
      { unfold info_hit. destruct Hmiss as [Hstale|Hnone].
        - now rewrite (not_fresh w m Hstale).
        - rewrite Hnone. now destruct (fresh w m). }
      split; [now apply info_miss_calls|].
      intros symbol name total Hs Hn Ht. eexists; eexists. split.
        -- apply (info_fetch w m symbol name total Hhit Hs Hn Ht).
        -- simpl. split; reflexivity.
Qed.

(** C1, at the first lookup of a fresh tracker: nothing is cached, the
    balance is fetched, stored and stamped with the clock. *)
Lemma C1_witness :
  exists m',
    @get_balance example_host addr1 shared_clock_oracle (boot 6)
    = (m', Return (format_balance (init 6) 5000000))
    /\ _balance_cache (tracker m') !! addr1 = Some (format_balance (init 6) 5000000)
    /\ _last_cache_update (tracker m') = 1000%Q.
Proof.
  destruct (@C1_shared_timestamp_freshness example_host shared_clock_oracle (boot 6))
    as (Hbalance & _ & _).
  destruct (Hbalance addr1 addr1 eq_refl) as (_ & Hmiss).
  destruct Hmiss as (_ & Hfetch); [right; reflexivity|].
  apply (Hfetch 5000000%N). reflexivity.
Defined.

(** * Further properties *)

Lemma bind_run {A B} (c : M A) (k : A -> M B) (w : Oracle) (m : Machine) :
  bind c k w m
  = match c w m with
    | (m', Return a) => k a w m'
    | (m', Raise e) => (m', Raise e)
    end.
Proof. reflexivity. Qed.

Lemma ret_run {A} (a : A) (w : Oracle) (m : Machine) : ret a w m = (m, Return a).
Proof. reflexivity. Qed.

Lemma try_except_run {A} (c : M A) (h : Exn -> M A) (w : Oracle) (m : Machine) :
  try_except c h w m
  = match c w m with
    | (m', Return a) => (m', Return a)
    | (m', Raise e) => h e w m'
    end.
Proof. reflexivity. Qed.

(** A loop whose body always returns and keeps [I] returns and keeps
    [I]. *)
Lemma for_each_inv {A B} (I : B -> Prop) (l : list A) (body : B -> A -> M B) :
  (forall x acc w m, x ∈ l -> I acc ->
     exists m' acc', body acc x w m = (m', Return acc') /\ I acc') ->
  forall acc w m, I acc ->
    exists m' acc', for_each l body acc w m = (m', Return acc') /\ I acc'.
Proof.
  induction l as [|x l IH]; intros Hbody acc w m Hacc; cbn [for_each].
  - exists m, acc. auto.
  - rewrite bind_run.
    destruct (Hbody x acc w m) as (m1 & acc1 & -> & Hacc1); [left|exact Hacc|].
    apply IH; [|exact Hacc1].
    intros y acc' w' m'' Hy. apply Hbody. now right.
Qed.

(** ** Batches of balance lookups *)

Section Batch.
Context `{Host}.

(** The loop of the batch, started from [acc], appends to [acc] what it
    appends to the empty list. *)
Lemma batch_loop_acc (l : list string) (acc : list Q) (w : Oracle) (m : Machine) :
  for_each l (fun acc addr => b <- get_balance addr ;; ret (acc ++ [b])) acc w m
  = match get_balance_batch l w m with
    | (m', Return bs) => (m', Return (acc ++ bs))
    | (m', Raise e) => (m', Raise e)
    end.
Proof.
  unfold get_balance_batch. revert acc w m.
  induction l as [|a l IH]; intros acc w m; cbn [for_each].
  - unfold ret. now rewrite app_nil_r.
  - repeat (rewrite bind_run; cbn beta).
    destruct (get_balance a w m) as [m1 [b|e]]; [|reflexivity].
    rewrite !ret_run. cbv beta iota.
    rewrite (IH (acc ++ [b])), (IH ([] ++ [b])).
    destruct (for_each l _ [] w m1) as [m2 [bs|e]]; [|reflexivity].
    now rewrite <- app_assoc.
Qed.

Lemma get_balance_batch_cons (a : string) (l : list string)
    (w : Oracle) (m : Machine) :
  get_balance_batch (a :: l) w m
  = match get_balance a w m with
    | (m1, Return b) =>
        match get_balance_batch l w m1 with
        | (m2, Return bs) => (m2, Return (b :: bs))
        | (m2, Raise e) => (m2, Raise e)
        end
    | (m1, Raise e) => (m1, Raise e)
    end.
Proof.
  unfold get_balance_batch at 1. cbn [for_each].
  repeat (rewrite bind_run; cbn beta).
  destruct (get_balance a w m) as [m1 [b|e]]; [|reflexivity].
  rewrite ret_run. cbv beta iota. now rewrite batch_loop_acc.
Qed.

Lemma get_balance_batch_app (l1 l2 : list string) (w : Oracle) (m : Machine) :
  get_balance_batch (l1 ++ l2) w m
  = match get_balance_batch l1 w m with
    | (m1, Return b1) =>
        match get_balance_batch l2 w m1 with
        | (m2, Return b2) => (m2, Return (b1 ++ b2))
        | (m2, Raise e) => (m2, Raise e)
        end
    | (m1, Raise e) => (m1, Raise e)
    end.
Proof.
  revert m. induction l1 as [|a l1 IH]; intros m.
  - simpl. change (get_balance_batch [] w m) with (m, Return (@nil Q)).
    now destruct (get_balance_batch l2 w m) as [m2 [b2|e]].
  - simpl. rewrite !get_balance_batch_cons.
    destruct (get_balance a w m) as [m1 [b|e]]; [|reflexivity].
    rewrite IH.
    destruct (get_balance_batch l1 w m1) as [m2 [b1|e]]; [|reflexivity].
    now destruct (get_balance_batch l2 w m2) as [m3 [b2|e]].
Qed.

Lemma get_balance_batch_length (l : list string) (w : Oracle) (m m' : Machine)
    (balances : list Q) :
  get_balance_batch l w m = (m', Return balances) -> length balances = length l.
Proof.
  revert m balances. induction l as [|a l IH]; intros m balances Hrun.
  - now injection Hrun as <- <-.
  - rewrite get_balance_batch_cons in Hrun.
    destruct (get_balance a w m) as [m1 [b|e]]; [|discriminate].
    destruct (get_balance_batch l w m1) as [m2 [bs|e]] eqn:Hl; [|discriminate].
    injection Hrun as <- <-. simpl. now rewrite (IH m1 bs Hl).
Qed.

(** X1: A batch that returns gives one balance per address, in the order of
    the addresses: the balance at the place of an address is what
    [get_balance] returns for it on the machine that the lookups of the
    addresses before it have left, and the balances before it are those
    of the batch of these addresses. *)
Theorem batch_answers_in_order (before after : list string) (address : string)
    (w : Oracle) (m m' : Machine) (balances : list Q) :
  get_balance_batch (before ++ address :: after) w m = (m', Return balances) ->
  length balances = length (before ++ address :: after)
  /\ exists mi mi' b,
       get_balance_batch before w m = (mi, Return (take (length before) balances))
       /\ get_balance address w mi = (mi', Return b)
       /\ balances !! length before = Some b.
Proof.
  intros Hrun. split; [exact (get_balance_batch_length _ w m m' balances Hrun)|].
  rewrite get_balance_batch_app in Hrun.
  destruct (get_balance_batch before w m) as [mi [b1|e]] eqn:Hbefore; [|discriminate].
  rewrite get_balance_batch_cons in Hrun.
  destruct (get_balance address w mi) as [mi' [b|e]] eqn:Ha; [|discriminate].
  destruct (get_balance_batch after w mi') as [m2 [b2|e]]; [|discriminate].
  injection Hrun as <- <-.
  pose proof (get_balance_batch_length _ w m mi b1 Hbefore) as Hlen.
  exists mi, mi', b. rewrite <- Hlen. split; [|split; [exact Ha|]].
  - now rewrite take_app_length.
  - now rewrite list_lookup_middle.
Qed.

(** X2: A batch raises exactly when one of its addresses does not normalise:
    the error is that of the first such address, and no balance of the
    addresses before it is handed back. *)
Theorem batch_fails_on_first_bad_address (l : list string) (w : Oracle)
    (m : Machine) (e : Exn) :
  snd (get_balance_batch l w m) = Raise e
  <-> exists before address after,
        l = before ++ address :: after
        /\ Forall (fun x => to_checksum_address x <> None) before
        /\ to_checksum_address address = None
        /\ e = InvalidAddress address.
Proof.
  revert m. induction l as [|a l IH]; intros m.
  - split; [discriminate|]. intros (before & address & after & Hl & _).
    destruct before; discriminate.
  - rewrite get_balance_batch_cons.
    destruct (to_checksum_address a) as [a'|] eqn:Hnorm.
    + destruct (get_balance a w m) as [m1 [b|e1]] eqn:Ha.
      * specialize (IH m1).
        destruct (get_balance_batch l w m1) as [m2 [bs|e2]]; simpl in *.
        -- split; [discriminate|].
           intros ([|x before] & address & after & Hl & Hbefore & Hbad & He).
           ++ injection Hl as -> _. congruence.
           ++ injection Hl as -> ->. apply Forall_cons in Hbefore as [_ Hbefore].
              assert (Hc : Return bs = Raise e)
                by (apply IH; now exists before, address, after).
              discriminate.
        -- split.
           ++ intros He. apply IH in He as (before & address & after & -> & Hb & Hbad & He).
              exists (a :: before), address, after. repeat split; try assumption.
              constructor; [congruence|exact Hb].
           ++ intros ([|x before] & address & after & Hl & Hbefore & Hbad & He).
              ** injection Hl as -> _. congruence.
              ** injection Hl as -> ->. apply Forall_cons in Hbefore as [_ Hbefore].
                 apply IH. now exists before, address, after.
      * apply (f_equal snd) in Ha. simpl in Ha.
        apply get_balance_raises in Ha. congruence.
    + rewrite (get_balance_invalid w m a Hnorm). simpl. split.
      * intros [= <-]. exists [], a, l. repeat split; auto.
      * intros ([|x before] & address & after & Hl & Hbefore & Hbad & He).
        -- injection Hl as -> _. now subst e.
        -- injection Hl as -> _. apply Forall_cons in Hbefore as [Hx _]. congruence.
Qed.
End Batch.

(** ** Who is ranked *)

Lemma elem_of_tx_addresses (log : list Tx) (a : string) :
  a ∈ tx_addresses log <-> exists tx, tx ∈ log /\ (a = tx_from tx \/ a = tx_to tx).
Proof.
  unfold tx_addresses.
  assert (Hgen : forall (acc : gset string),
             a ∈ foldl (fun addresses tx => addresses ∪ {[tx_from tx]} ∪ {[tx_to tx]})
                   acc log
             <-> a ∈ acc \/ exists tx, tx ∈ log /\ (a = tx_from tx \/ a = tx_to tx)).
  { induction log as [|tx log IH]; intros acc; simpl.
    - split; [auto|]. intros [Ha|(tx & Htx & _)]; [exact Ha|]. inversion Htx.
    - rewrite IH. rewrite !elem_of_union, !elem_of_singleton. split.
      + intros [[[Ha|Ha]|Ha]|(tx' & Htx' & Hor)]; eauto.
        * right. exists tx. split; [left|auto].
        * right. exists tx. split; [left|auto].
        * right. exists tx'. split; [now right|exact Hor].
      + intros [Ha|(tx' & Htx' & Hor)]; [auto|].
        apply elem_of_cons in Htx' as [->|Htx']; [tauto|].
        right. now exists tx'. }
  rewrite Hgen. rewrite elem_of_empty. split; [intros [[]|Hex]; exact Hex|auto].
Qed.

Section Ranked.
Context `{Host}.

(** The loop of [get_top_holders] over the addresses [l]: it appends, in
    the order of [l], entries for some of the addresses of [l]. *)
Lemma top_holders_loop (l : list string) (acc : list (string * Q))
    (w : Oracle) (m : Machine) :
  exists m' extra,
    for_each l
      (fun holders address =>
         if String.eqb address BURN_ADDRESS then ret holders
         else
           try_except
             (balance <- get_balance address ;;
              if lt 0 balance then ret (holders ++ [(address, balance)])
              else ret holders)
             (fun _ => ret holders))
      acc w m
    = (m', Return (acc ++ extra))
    /\ map fst extra `sublist_of` l.
Proof.
  revert acc w m. induction l as [|a l IH]; intros acc w m; cbn [for_each].
  - exists m, []. rewrite app_nil_r. split; [reflexivity|constructor].
  - rewrite bind_run.
    assert (Hstep : exists m1 step,
               (if String.eqb a BURN_ADDRESS then ret acc
                else
                  try_except
                    (balance <- get_balance a ;;
                     if lt 0 balance then ret (acc ++ [(a, balance)]) else ret acc)
                    (fun _ => ret acc)) w m
               = (m1, Return (acc ++ step))
               /\ map fst step `sublist_of` [a]).
    { destruct (String.eqb a BURN_ADDRESS).
      - exists m, []. rewrite app_nil_r. split; [reflexivity|].
        apply sublist_nil_l.
      - rewrite try_except_run, bind_run.
        destruct (get_balance a w m) as [m1 [b|e]].
        + destruct (lt 0 b).
          * exists m1, [(a, b)]. split; reflexivity.
          * exists m1, []. rewrite app_nil_r. split; [reflexivity|].
            apply sublist_nil_l.
        + exists m1, []. rewrite app_nil_r. split; [reflexivity|].
          apply sublist_nil_l. }
    destruct Hstep as (m1 & step & -> & Hstep).
    destruct (IH (acc ++ step) w m1) as (m' & extra & -> & Hextra).
    exists m', (step ++ extra). rewrite app_assoc. split; [reflexivity|].
    rewrite map_app. change (a :: l) with ([a] ++ l). now apply sublist_app.
Qed.

(** X3: [get_top_holders], for every [n]: no address is listed twice, and
    every listed address is the sender or the recipient of a record of
    the fetched log. *)
Theorem top_holders_are_parties_of_the_log (w : Oracle) (m m1 : Machine)
    (log : list Tx) (n : Z) :
  _get_token_transactions w m = (m1, Return log) ->
  exists m' holders,
    get_top_holders n w m = (m', Return holders)
    /\ NoDup (map fst holders)
    /\ forall a b, (a, b) ∈ holders ->
         exists tx, tx ∈ log /\ (a = tx_from tx \/ a = tx_to tx).
Proof.
  intros Hfetch. unfold get_top_holders. rewrite bind_run, Hfetch.
  destruct log as [|tx log].
  { exists m1, []. split; [reflexivity|]. split; [constructor|].
    intros a b Hin. inversion Hin. }
  rewrite bind_run.
  destruct (top_holders_loop (set_iter (tx_addresses (tx :: log))) [] w m1)
    as (m' & holders & -> & Hsub).
  simpl app. exists m', (slice_to n (sorted_desc snd holders)).
  split; [reflexivity|].
  assert (Hslice : slice_to n (sorted_desc snd holders)
                     `sublist_of` sorted_desc snd holders).
  { unfold slice_to. destruct (n <? 0); apply sublist_take. }
  assert (Hnodup : NoDup (map fst holders)).
  { eapply sublist_NoDup; [apply set_iter_NoDup|exact Hsub]. }
  split.
  - eapply sublist_NoDup; [|apply (fmap_sublist fst), Hslice].
    change (NoDup (map fst (sorted_desc snd holders))).
    now rewrite (Permutation_map fst (sorted_desc_perm snd holders)).
  - intros a b Hin.
    apply elem_of_tx_addresses, set_iter_elem.
    eapply elem_of_sublist; [|exact Hsub].
    apply (elem_of_sublist _ _ _ Hin) in Hslice.
    rewrite sorted_desc_perm in Hslice.
    change a with (fst (a, b)). apply (list_elem_of_fmap_2 fst), Hslice.
Qed.
End Ranked.

(** ** Who is ranked with a last activity *)

Lemma holders_data_has_false (a : string) (d : HoldersData) :
  holders_data_has a d = false -> a ∉ map fst d.
Proof.
  unfold holders_data_has. induction d as [|[k v] d IH]; simpl.
  - intros _ Hin. inversion Hin.
  - intros Hno. apply orb_false_iff in Hno as [Hk Hd].
    apply String.eqb_neq in Hk. apply not_elem_of_cons. split; [congruence|auto].
Qed.

Section RankedWithActivity.
Context `{Host}.
Variable log : list Tx.

(** One address of one record. *)
Lemma activity_step (tx : Tx) (a : string) (d : HoldersData)
    (w : Oracle) (m : Machine) :
  tx ∈ log ->
  a = tx_to tx \/ a = tx_from tx ->
  NoDup (map fst d) -> Forall (recorded_from log) d ->
  exists m' d',
    (if negb (holders_data_has a d) && negb (String.eqb a BURN_ADDRESS)
     then
       try_except
         (balance <- get_balance a ;;
          if lt 0 balance
          then ret (d ++ [(a, (balance, strftime (tx_timeStamp tx)))])
          else ret d)
         (fun _ => ret d)
     else ret d) w m
    = (m', Return d')
    /\ NoDup (map fst d') /\ Forall (recorded_from log) d'.
Proof.
  intros Htx Ha Hnodup Hall.
  destruct (holders_data_has a d) eqn:Hhas; simpl;
    [exists m, d; auto|].
  destruct (String.eqb a BURN_ADDRESS) eqn:Hburn; simpl;
    [exists m, d; auto|].
  rewrite try_except_run, bind_run.
  destruct (get_balance a w m) as [m1 [b|e]]; [|exists m1, d; auto].
  destruct (lt 0 b) eqn:Hpos; [|exists m1, d; auto].
  eexists; eexists. split; [reflexivity|]. split.
  - rewrite map_app. apply NoDup_app. split; [exact Hnodup|]. split.
    + intros x Hx Hin. apply list_elem_of_singleton in Hin. subst x.
      now apply holders_data_has_false in Hhas.
    + apply NoDup_singleton.
  - apply Forall_app. split; [exact Hall|]. constructor; [|constructor].
    split; [now apply String.eqb_neq|]. split; [now apply lt_spec|].
    exists tx. auto.
Qed.

(** The scan of the records [l] of the log. *)
Lemma activity_loop (l : list Tx) (d : HoldersData) (w : Oracle) (m : Machine) :
  (forall tx, tx ∈ l -> tx ∈ log) ->
  NoDup (map fst d) /\ Forall (recorded_from log) d ->
  exists m' d',
    for_each l
      (fun holders_data tx =>
         for_each [tx_to tx; tx_from tx]
           (fun (holders_data : HoldersData) address =>
              if negb (holders_data_has address holders_data)
                 && negb (String.eqb address BURN_ADDRESS)
              then
                try_except
                  (balance <- get_balance address ;;
                   if lt 0 balance
                   then ret (holders_data
                               ++ [(address, (balance, strftime (tx_timeStamp tx)))])
                   else ret holders_data)
                  (fun _ => ret holders_data)
              else ret holders_data)
           holders_data)
      d w m
    = (m', Return d')
    /\ NoDup (map fst d') /\ Forall (recorded_from log) d'.
Proof.
  intros Hl. revert d w m.
  apply (for_each_inv
           (fun d : HoldersData => NoDup (map fst d) /\ Forall (recorded_from log) d)).
  intros tx d w m Htx Hd.
  revert d w m Hd. apply for_each_inv.
  intros a d w m Ha [Hnodup Hall].
  apply (activity_step tx a d w m); auto.
  apply elem_of_cons in Ha as [->|Ha]; [now left|].
  apply list_elem_of_singleton in Ha. now right.
Qed.

(** What [get_top_with_transactions] returns is cut from the sorted
    entries of a [holders_data] that the scan has left; the count plays
    no part before the cut. *)
Lemma get_top_with_transactions_run (w : Oracle) (m m1 : Machine) :
  _get_token_transactions w m = (m1, Return log) ->
  exists m' d,
    NoDup (map fst d) /\ Forall (recorded_from log) d
    /\ forall n,
         get_top_with_transactions n w m
         = (m', Return (slice_to n
                          (sorted_desc (fun x => snd (fst x))
                             (map (fun kv => (fst kv, fst (snd kv), snd (snd kv))) d)))).
Proof.
  intros Hfetch.
  destruct (activity_loop log [] w m1) as (m' & d & Hrun & Hnodup & Hall);
    [auto|split; constructor|].
  destruct log as [|tx0 log0].
  { exists m1, []. split; [constructor|]. split; [constructor|]. intros n.
    unfold get_top_with_transactions. rewrite bind_run, Hfetch.
    rewrite ret_run. unfold slice_to. simpl.
    destruct (n <? 0); now rewrite take_nil. }
  exists m', d. split; [exact Hnodup|]. split; [exact Hall|]. intros n.
  unfold get_top_with_transactions. rewrite bind_run, Hfetch.
  rewrite bind_run.
  match goal with
  | |- context [for_each ?l ?body ?acc w m1] =>
      replace (for_each l body acc w m1) with (m', Return d)
        by (symmetry; exact Hrun)
  end.
  now rewrite ret_run.
Qed.

(** X4: [get_top_with_transactions], for a count [n] that is not negative:
    at most [n] entries, in descending order of balance, no address
    twice, never the burn address, every balance above zero, and every
    time the rendering of the time stamp of a record of the fetched log
    whose recipient or sender is the entry's address. *)
Theorem top_with_transactions_entries (w : Oracle) (m m1 : Machine) (n : Z) :
  _get_token_transactions w m = (m1, Return log) ->
  0 <= n ->
  exists m' holders,
    get_top_with_transactions n w m = (m', Return holders)
    /\ Z.of_nat (length holders) <= n
    /\ descending (fun x => snd (fst x)) holders
    /\ NoDup (map (fun x => fst (fst x)) holders)
    /\ forall a b ts, (a, b, ts) ∈ holders ->
         a <> BURN_ADDRESS
         /\ (0 < b)%Q
         /\ exists tx, tx ∈ log
                       /\ (a = tx_to tx \/ a = tx_from tx)
                       /\ ts = strftime (tx_timeStamp tx).
Proof.
  intros Hfetch Hn.
  destruct (get_top_with_transactions_run w m m1 Hfetch)
    as (m' & d & Hnodup & Hall & Hrun).
  rewrite (Hrun n).
  set (entry := fun kv : string * (Q * string) => (fst kv, fst (snd kv), snd (snd kv))).
  eexists; eexists. split; [reflexivity|].
  assert (Hslice : forall l : list (string * Q * string),
             slice_to n l `sublist_of` l).
  { intros l. unfold slice_to. destruct (n <? 0); apply sublist_take. }
  split; [now apply slice_to_length|].
  split; [apply slice_to_descending, sorted_desc_descending|].
  split.
  - eapply sublist_NoDup; [|apply (fmap_sublist (fun x => fst (fst x))), Hslice].
    change (NoDup (map (fun x => fst (fst x))
                     (sorted_desc (fun x => snd (fst x)) (map entry d)))).
    rewrite (Permutation_map _ (sorted_desc_perm _ (map entry d))).
    rewrite map_map. exact Hnodup.
  - intros a b ts Hin.
    apply (elem_of_sublist _ _ _ Hin) in Hslice.
    rewrite sorted_desc_perm in Hslice.
    apply list_elem_of_In, in_map_iff in Hslice as ([k [v t]] & Heq & Hkv).
    injection Heq as -> -> ->.
    rewrite Forall_forall in Hall.
    apply list_elem_of_In in Hkv. exact (Hall _ Hkv).
Qed.
End RankedWithActivity.

(** ** What the handlers answer *)

Section Handlers.
Context `{Host}.

Lemma get_balance_returns (address a : string) (w : Oracle) (m : Machine) :
  to_checksum_address address = Some a ->
  exists m' b, get_balance address w m = (m', Return b).
Proof.
  intros Hnorm. destruct (get_balance address w m) as [m' [b|e]] eqn:Hrun; [eauto|].
  apply (f_equal snd) in Hrun. apply get_balance_raises in Hrun. congruence.
Qed.

Lemma get_balance_batch_returns (l : list string) (w : Oracle) (m : Machine) :
  Forall (fun x => to_checksum_address x <> None) l ->
  exists m' bs, get_balance_batch l w m = (m', Return bs).
Proof.
  revert m. induction l as [|a l IH]; intros m Hall.
  - exists m, []. reflexivity.
  - apply Forall_cons in Hall as [Ha Hl]. rewrite get_balance_batch_cons.
    destruct (to_checksum_address a) as [a'|] eqn:Hnorm; [|contradiction].
    destruct (get_balance_returns a a' w m Hnorm) as (m1 & b & ->).
    destruct (IH m1 Hl) as (m2 & bs & ->). eauto.
Qed.

Lemma get_balance_batch_refuses (l : list string) (w : Oracle) (m : Machine) :
  Exists (fun x => to_checksum_address x = None) l ->
  exists m' e, get_balance_batch l w m = (m', Raise e).
Proof.
  revert m. induction l as [|a l IH]; intros m Hex; [inversion Hex|].
  rewrite get_balance_batch_cons.
  destruct (to_checksum_address a) as [a'|] eqn:Hnorm.
  - apply Exists_cons in Hex as [Ha|Hl]; [congruence|].
    destruct (get_balance_returns a a' w m Hnorm) as (m1 & b & ->).
    destruct (IH m1 Hl) as (m2 & e & ->). eauto.
  - rewrite (get_balance_invalid w m a Hnorm). eauto.
Qed.

(** X5: [api_get_balance]: with the address missing, empty or refused by the
    normalisation the answer is 400 and the tracker, the clock and the
    upstream are left alone; otherwise the answer is 200 with the balance
    that [get_balance] returns. *)
Theorem api_get_balance_answers (arg : option string) (w : Oracle) (m : Machine) :
  (missing arg = true ->
   api_get_balance arg w m = (m, Return (error "Address parameter is required")))
  /\ forall address,
       arg = Some address -> address <> "" ->
       match to_checksum_address address with
       | None => exists msg, api_get_balance arg w m = (m, Return (error msg))
       | Some _ =>
           exists m' b,
             get_balance address w m = (m', Return b)
             /\ api_get_balance arg w m
                = (m', Return (ok (JObject [("balance", JFloat b)])))
       end.
Proof.
  split.
  - intros Hmiss. unfold api_get_balance. now rewrite Hmiss.
  - intros address -> Hne. unfold api_get_balance. simpl.
    apply String.eqb_neq in Hne. rewrite Hne.
    unfold guarded. rewrite try_except_run, bind_run.
    destruct (to_checksum_address address) as [a|] eqn:Hnorm.
    + destruct (get_balance_returns address a w m Hnorm) as (m' & b & Hrun).
      rewrite Hrun. eauto.
    + rewrite (get_balance_invalid w m address Hnorm). eexists. reflexivity.
Qed.

(** X6: [api_get_balance_batch], from the value that [get_json] returned:
    400 with the handler's message and without any lookup when the value
    is [null], the empty object or an object without the key
    ['addresses']; for an object with the key, 200 with one balance per
    address, for a list of any length, when every address normalises,
    and 400 when one does not. *)
Theorem api_get_balance_batch_answers (data : BatchData)
    (w : Oracle) (m : Machine) :
  (data = DataNull
   \/ data = DataObject ∅
   \/ (exists fields, data = DataObject fields /\ fields !! "addresses" = None) ->
   api_get_balance_batch data w m
   = (m, Return (error "Addresses are required in request body")))
  /\ forall fields l,
       data = DataObject fields ->
       fields !! "addresses" = Some l ->
       (Forall (fun x => to_checksum_address x <> None) l ->
        exists m' bs,
          get_balance_batch l w m = (m', Return bs)
          /\ length bs = length l
          /\ api_get_balance_batch data w m
             = (m', Return (ok (JObject [("balances", JList (map JFloat bs))]))))
       /\ (Exists (fun x => to_checksum_address x = None) l ->
           exists m' msg, api_get_balance_batch data w m = (m', Return (error msg))).
Proof.
  split.
  - intros [->|[->|(fields & -> & Hnone)]]; [reflexivity|reflexivity|].
    unfold api_get_balance_batch; simpl. rewrite Hnone.
    now destruct (bool_decide (fields = ∅)).
  - intros fields l -> Hsome. unfold api_get_balance_batch; simpl.
    rewrite Hsome.
    assert (Hfull : bool_decide (fields = ∅) = false).
    { apply bool_decide_eq_false. intros ->.
      rewrite lookup_empty in Hsome. discriminate. }
    rewrite Hfull. unfold guarded. rewrite try_except_run, bind_run. split.
    + intros Hall.
      destruct (get_balance_batch_returns l w m Hall) as (m' & bs & Hrun).
      rewrite Hrun. exists m', bs. split; [reflexivity|].
      split; [exact (get_balance_batch_length l w m m' bs Hrun)|reflexivity].
    + intros Hex. destruct (get_balance_batch_refuses l w m Hex) as (m' & e & ->).
      eexists; eexists. reflexivity.
Qed.

Lemma get_token_stats_returns : spec any any none get_token_stats.
Proof.
  unfold get_token_stats.
  eapply spec_try with (E' := any); [apply spec_any|].
  intros e _. now apply spec_ret.
Qed.

(** X7: [api_token_info] and [api_token_stats] answer 200 whatever the
    upstream does: an outage shows as an empty or shorter object, never
    as an error. *)
Theorem token_endpoints_answer_200 (w : Oracle) (m : Machine) :
  (exists m' info,
      get_token_info w m = (m', Return info)
      /\ api_token_info w m = (m', Return (ok (jsonify_dict info))))
  /\ (exists m' stats,
         get_token_stats w m = (m', Return stats)
         /\ api_token_stats w m = (m', Return (ok (jsonify_dict stats)))).
Proof.
  split.
  - pose proof (get_token_info_returns w m I) as Hs.
    unfold api_token_info, guarded. rewrite try_except_run, bind_run.
    destruct (get_token_info w m) as [m' [info|e]]; [eauto|destruct Hs as [_ []]].
  - pose proof (get_token_stats_returns w m I) as Hs.
    unfold api_token_stats, guarded. rewrite try_except_run, bind_run.
    destruct (get_token_stats w m) as [m' [stats|e]]; [eauto|destruct Hs as [_ []]].
Qed.

(** X8: The two ranking handlers, for a count above zero (10 when the
    argument is absent or not an integer): the answer is 200 and lists
    what the tracker method returns for that count, at most that many
    entries. *)
Theorem ranking_endpoints_answer (arg : option Z) (w : Oracle) (m : Machine) :
  0 < default 10 arg ->
  (exists m' holders,
      get_top_holders (default 10 arg) w m = (m', Return holders)
      /\ Z.of_nat (length holders) <= default 10 arg
      /\ api_get_top arg w m
         = (m', Return
                  (ok (JObject
                         [("top_holders",
                           JList (map (fun h => JObject [("address", JStr (fst h));
                                                         ("balance", JFloat (snd h))])
                                      holders))]))))
  /\ (exists m' holders,
         get_top_with_transactions (default 10 arg) w m = (m', Return holders)
         /\ Z.of_nat (length holders) <= default 10 arg
         /\ api_get_top_with_transactions arg w m
            = (m', Return
                     (ok (JObject
                            [("holders",
                              JList (map (fun h =>
                                            JObject [("address", JStr (fst (fst h)));
                                                     ("balance", JFloat (snd (fst h)));
                                                     ("last_transaction", JStr (snd h))])
                                         holders))])))).
Proof.
  intros Hn.
  assert (Hgt : (default 10 arg <=? 0) = false) by now apply Z.leb_gt.
  split.
  - pose proof (get_top_holders_spec (default 10 arg) Hn w m I) as Hs.
    unfold api_get_top, guarded. rewrite try_except_run. cbv zeta. rewrite Hgt.
    rewrite bind_run.
    destruct (get_top_holders (default 10 arg) w m) as [m' [holders|e]];
      [|destruct Hs as [_ []]].
    destruct Hs as (_ & Hlen & _). exists m', holders. auto.
  - pose proof (get_token_transactions_returns w m I) as Hlog.
    destruct (_get_token_transactions w m) as [m1 [log|e]] eqn:Hfetch;
      [|destruct Hlog as [_ []]].
    destruct (get_top_with_transactions_run log w m m1 Hfetch)
      as (m' & d & _ & _ & Hrun).
    unfold api_get_top_with_transactions, guarded.
    rewrite try_except_run. cbv zeta. rewrite Hgt. rewrite bind_run, Hrun.
    eexists; eexists. split; [reflexivity|]. split; [|reflexivity].
    apply slice_to_length. lia.
Qed.
End Handlers.

(** ** Reading again, and reading while upstream is down *)

Section ReadAgain.
Context `{Host}.
Variables (w : Oracle) (m : Machine).


(** X10: No fallback to a stale value: when the shared timestamp has expired
    and the upstream call fails, a read returns the int 0, the empty list
    or the empty dict although a value is cached, and the cached value
    stays where it is. *)
Theorem no_stale_fallback :
  ~ shared_fresh w m ->
  (forall address a v,
      to_checksum_address address = Some a ->
      _balance_cache (tracker m) !! a = Some v ->
      chain_balanceOf (w (S (tick m))) a = None ->
      exists m', get_balance address w m = (m', Return 0%Q)
                 /\ _balance_cache (tracker m') !! a = Some v)
  /\ (etherscan_tokentx (w (S (tick m))) = None ->
      exists m', _get_token_transactions w m = (m', Return [])
                 /\ _tx_cache (tracker m') = _tx_cache (tracker m))
  /\ (chain_symbol (w (S (tick m))) = None ->
      exists m', get_token_info w m = (m', Return [])
                 /\ _token_info_cache (tracker m') = _token_info_cache (tracker m)).
Proof.
  intros Hstale. apply not_fresh in Hstale.
  split; [|split].
  - intros address a v Hnorm Hv Hfail.
    rewrite (get_balance_fail w m address a Hnorm); [|unfold balance_hit; now rewrite Hstale|exact Hfail].
    eexists. split; [reflexivity|exact Hv].
  - intros Hfail. rewrite (tx_fail w m).
    + eexists. split; reflexivity.
    + unfold tx_hit. now rewrite Hstale.
    + intros; congruence.
  - intros Hfail.
    destruct (info_fail w m) as (m' & Hrun & Hsame).
    + unfold info_hit. now rewrite Hstale.
    + now left.
    + exists m'. split; [exact Hrun|now rewrite Hsame].
Qed.
End ReadAgain.

(** ** What no query undoes *)

(** X11: No query evicts or resets anything: after any query the lifetime is
    what it was, every address that had a cached balance still has one,
    and a token info that was stored is still stored. *)
Theorem queries_never_evict `{Host} (q : Query) (w : Oracle) (m : Machine) :
  let m' := fst (run_query q w m) in
  _cache_lifetime (tracker m') = _cache_lifetime (tracker m)
  /\ decimals (tracker m') = decimals (tracker m)
  /\ (forall a, is_Some (_balance_cache (tracker m) !! a) ->
                is_Some (_balance_cache (tracker m') !! a))
  /\ (is_Some (_token_info_cache (tracker m)) ->
      is_Some (_token_info_cache (tracker m'))).
Proof.
  set (T := fun t : TokenTracker =>
              _cache_lifetime t = _cache_lifetime (tracker m)
              /\ decimals t = decimals (tracker m)
              /\ (forall a, is_Some (_balance_cache (tracker m) !! a) ->
                            is_Some (_balance_cache t !! a))
              /\ (is_Some (_token_info_cache (tracker m)) ->
                  is_Some (_token_info_cache t))).
  assert (Hinv : cache_invariant T).
  { split; unfold T; simpl.
    - intros t self a raw (Hl & Hd & Hb & Hi). repeat split; auto.
      intros a' Ha'. rewrite lookup_insert. case_decide; [eauto|auto].
    - intros t l Ht; exact Ht.
    - intros t d (Hl & Hd & Hb & Hi). repeat split; eauto.
    - intros t now Ht; exact Ht. }
  assert (Hm : T (tracker m)) by (unfold T; auto).
  pose proof (keeps_run_query T Hinv q w m Hm) as Hkept.
  cbv zeta. destruct (run_query q w m) as [m' [[]|e]]; simpl;
    destruct Hkept as [Hk _]; exact Hk.
Qed.

(** ** Address history at its edges *)

Section HistoryEdges.
Context `{Host}.

(** X12: An address that the normalisation refuses has an empty history, not
    an error: the log is fetched all the same, [api_address_history]
    answers 200 with no transaction, while [api_get_balance] answers 400
    for the same address. *)
Theorem history_of_refused_address (address : string) (arg_limit : option Z)
    (w : Oracle) (m : Machine) :
  address <> "" ->
  to_checksum_address address = None ->
  exists log,
    get_address_history address (default 100 arg_limit) w m
    = (fst (_get_token_transactions w m), Return [])
    /\ snd (_get_token_transactions w m) = Return log
    /\ api_address_history (Some address) arg_limit w m
       = (fst (_get_token_transactions w m),
          Return (ok (JObject [("address", JStr address);
                               ("transactions", JList [])])))
    /\ exists msg, api_get_balance (Some address) w m = (m, Return (error msg)).
Proof.
  intros Hne Hnorm.
  pose proof (get_token_transactions_returns w m I) as Hlog.
  destruct (_get_token_transactions w m) as [m1 [log|e]] eqn:Hfetch;
    [|destruct Hlog as [_ []]].
  assert (Hrun : get_address_history address (default 100 arg_limit) w m
                 = (m1, Return [])).
  { unfold get_address_history, w3_to_checksum_address.
    rewrite try_except_run, bind_run, Hfetch, Hnorm. reflexivity. }
  exists log. split; [exact Hrun|]. split; [reflexivity|]. split.
  - unfold api_address_history. simpl.
    apply String.eqb_neq in Hne. rewrite Hne.
    unfold guarded. now rewrite try_except_run, bind_run, Hrun.
  - unfold api_get_balance. simpl. apply String.eqb_neq in Hne. rewrite Hne.
    unfold guarded.
    rewrite try_except_run, bind_run, (get_balance_invalid w m address Hnorm).
    eexists. reflexivity.
Qed.

Lemma history_loop_nonpositive (self : TokenTracker) (a : string) (limit : Z)
    (txs : list Tx) :
  limit <= 0 ->
  history_loop self a limit txs []
  = match txs with
    | [] => []
    | tx :: _ => if touches a tx then [history_entry self a tx] else []
    end.
Proof.
  intros Hlimit. destruct txs as [|tx rest]; [reflexivity|]. simpl.
  destruct (touches a tx);
    (destruct (limit <=? _) eqn:Hle;
       [reflexivity|apply Z.leb_gt in Hle; simpl in Hle; lia]).
Qed.

(** X13: With a limit of zero or less, [get_address_history] looks at the
    newest record of the log only: it returns that record's entry when
    the record touches the address, and nothing otherwise. *)
Theorem history_with_nonpositive_limit (address a : string) (limit : Z)
    (w : Oracle) (m : Machine) :
  to_checksum_address address = Some a ->
  limit <= 0 ->
  exists m1 log,
    _get_token_transactions w m = (m1, Return log)
    /\ get_address_history address limit w m
       = (m1, Return match log with
                     | [] => []
                     | tx :: _ =>
                         if touches a tx then [history_entry (tracker m1) a tx]
                         else []
                     end).
Proof.
  intros Hnorm Hlimit.
  pose proof (get_token_transactions_returns w m I) as Hlog.
  destruct (_get_token_transactions w m) as [m1 [log|e]] eqn:Hfetch;
    [|destruct Hlog as [_ []]].
  exists m1, log. split; [reflexivity|].
  unfold get_address_history, w3_to_checksum_address.
  rewrite try_except_run, bind_run, Hfetch, Hnorm.
  rewrite bind_run, ret_run. cbv beta iota.
  unfold bind, get_self, ret. simpl tracker.
  now rewrite history_loop_nonpositive.
Qed.

End HistoryEdges.

(** ** The count of a ranking *)

Lemma slice_to_all {A} (n : Z) (l : list A) :
  Z.of_nat (length l) <= n -> slice_to n l = l.
Proof.
  intros Hn. unfold slice_to.
  destruct (n <? 0) eqn:Hneg; [apply Z.ltb_lt in Hneg; lia|].
  apply take_ge. lia.
Qed.

Lemma slice_to_negative {A} (k : nat) (l : list A) :
  (0 < k)%nat -> slice_to (- Z.of_nat k) l = take (length l - k) l.
Proof.
  intros Hk. unfold slice_to.
  destruct (- Z.of_nat k <? 0) eqn:Hneg; [|apply Z.ltb_ge in Hneg; lia].
  f_equal. lia.
Qed.

Lemma get_top_holders_run `{Host} (w : Oracle) (m : Machine) :
  exists m' holders,
    forall n,
      get_top_holders n w m = (m', Return (slice_to n (sorted_desc snd holders))).
Proof.
  pose proof (get_token_transactions_returns w m I) as Hlog.
  destruct (_get_token_transactions w m) as [m1 [log|e]] eqn:Hfetch;
    [|destruct Hlog as [_ []]].
  destruct log as [|tx log].
  { exists m1, []. intros n. unfold get_top_holders. rewrite bind_run, Hfetch.
    rewrite ret_run. unfold slice_to. simpl.
    destruct (n <? 0); now rewrite take_nil. }
  destruct (top_holders_loop (set_iter (tx_addresses (tx :: log))) [] w m1)
    as (m' & holders & Hrun & _).
  exists m', holders. intros n.
  unfold get_top_holders. rewrite bind_run, Hfetch. rewrite bind_run.
  match goal with
  | |- context [for_each ?l ?body ?acc w m1] =>
      replace (for_each l body acc w m1) with (m', Return ([] ++ holders))
        by (symmetry; exact Hrun)
  end.
  now rewrite ret_run.
Qed.

(** X15: The count only cuts the ranking: whatever [n] is, the two ranking
    methods make the same upstream calls, leave the same machine and rank
    the same entries, and return the first [n] of them; all of them when
    [n] is at least their number, none for zero, and all but the last [k]
    for a count of [-k]. *)
Theorem count_only_cuts_the_ranking `{Host} (w : Oracle) (m : Machine) :
  (exists m' ranking,
      descending snd ranking
      /\ forall n,
           get_top_holders n w m = (m', Return (slice_to n ranking))
           /\ (Z.of_nat (length ranking) <= n -> slice_to n ranking = ranking)
           /\ (n = 0 -> slice_to n ranking = [])
           /\ (forall k, (0 < k)%nat -> n = - Z.of_nat k ->
                 slice_to n ranking = take (length ranking - k) ranking))
  /\ (exists m' ranking,
         descending (fun x => snd (fst x)) ranking
         /\ forall n,
              get_top_with_transactions n w m = (m', Return (slice_to n ranking))
              /\ (Z.of_nat (length ranking) <= n -> slice_to n ranking = ranking)
              /\ (n = 0 -> slice_to n ranking = [])
              /\ (forall k, (0 < k)%nat -> n = - Z.of_nat k ->
                    slice_to n ranking = take (length ranking - k) ranking)).
Proof.
  split.
  - destruct (get_top_holders_run w m) as (m' & holders & Hrun).
    exists m', (sorted_desc snd holders).
    split; [apply sorted_desc_descending|]. intros n.
    split; [apply Hrun|]. split; [apply slice_to_all|].
    split; [now intros ->|]. intros k Hk ->. now apply slice_to_negative.
  - pose proof (get_token_transactions_returns w m I) as Hlog.
    destruct (_get_token_transactions w m) as [m1 [log|e]] eqn:Hfetch;
      [|destruct Hlog as [_ []]].
    destruct (get_top_with_transactions_run log w m m1 Hfetch)
      as (m' & d & _ & _ & Hrun).
    eexists; eexists.
    split; [apply sorted_desc_descending|]. intros n.
    split; [apply Hrun|]. split; [apply slice_to_all|].
    split; [now intros ->|]. intros k Hk ->. now apply slice_to_negative.
Qed.

(** ** Amounts *)

Lemma scale_positive (self : TokenTracker) :
  (0 < / inject_Z (10 ^ Z.of_N (decimals self)))%Q.
Proof.
  apply Qinv_lt_0_compat.
  replace 0%Q with (inject_Z 0) by reflexivity. rewrite <- Zlt_Qlt.
  apply Z.pow_pos_nonneg; lia.
Qed.

(** X16: [format_balance] never turns the order of two raw amounts
    round: of two amounts the greater or equal one is shown as the
    greater or equal value, no raw amount from zero up is shown below
    zero, and the raw amount zero is shown as zero. *)
Theorem format_balance_monotone (self : TokenTracker) (x y : Z) :
  (x <= y -> (format_balance self x <= format_balance self y)%Q)
  /\ (0 <= x -> (0 <= format_balance self x)%Q)
  /\ (format_balance self 0 == 0)%Q.
Proof.
  pose proof (scale_positive self) as Hpos.
  assert (Hle : forall a b : Z,
             a <= b -> (format_balance self a <= format_balance self b)%Q).
  { intros a b Hab. unfold format_balance, Qdiv.
    apply Qmult_le_compat_r; [now rewrite <- Zle_Qle|now apply Qlt_le_weak]. }
  assert (Hzero : (format_balance self 0 == 0)%Q)
    by (unfold format_balance, Qdiv; apply Qmult_0_l).
  split; [apply Hle|]. split; [|exact Hzero].
  intros Hx. rewrite <- Hzero. now apply Hle.
Qed.

(** ** Statistics and token info *)

Lemma foldl_added_up (holders : list (string * Q)) (start : Q) :
  foldl Qplus start (map snd holders) = added_up start holders.
Proof.
  revert start. induction holders as [|[address balance] rest IH]; intros start;
    simpl; [reflexivity|apply IH].
Qed.

(** X17: [get_token_stats] extends the token info: every key of the info
    keeps its value; ['unique_holders'] counts the holders that
    [get_top_holders(100)] returns, of whom there are at most 100;
    ['total_held'] is the int 0 when there is no holder and otherwise
    their balances added up from the first to the last; and when the
    token info is the empty dict the statistics hold the three counts
    alone. *)
Theorem stats_extend_token_info `{Host} (w : Oracle) (m : Machine) :
  exists m1 info m2 holders stats,
    get_token_info w m = (m1, Return info)
    /\ get_top_holders 100 w m1 = (m2, Return holders)
    /\ get_token_stats w m = (m2, Return stats)
    /\ (length holders <= 100)%nat
    /\ dict_get "unique_holders" stats = Some (VInt (Z.of_nat (length holders)))
    /\ dict_get "total_held" stats
       = Some (match holders with
               | [] => VInt 0
               | _ :: _ => VFloat (added_up 0 holders)
               end)
    /\ (forall k,
          k <> "unique_holders" -> k <> "total_held" -> k <> "average_balance" ->
          dict_get k stats = dict_get k info)
    /\ (info = [] ->
        map fst stats = ["unique_holders"; "total_held"; "average_balance"]).
Proof.
  pose proof (get_token_info_returns w m I) as Hinfo.
  destruct (get_token_info w m) as [m1 [info|e]] eqn:Einfo;
    [|destruct Hinfo as [_ []]].
  pose proof (get_top_holders_spec 100 ltac:(lia) w m1 I) as Hholders.
  destruct (get_top_holders 100 w m1) as [m2 [holders|e]] eqn:Eholders;
    [|destruct Hholders as [_ []]].
  destruct Hholders as (_ & Hlen & _).
  exists m1, info, m2, holders.
  assert (Hrun : exists avg,
             get_token_stats w m
             = (m2, Return
                      (dict_set "average_balance" avg
                         (dict_set "total_held" (py_sum (map snd holders))
                            (dict_set "unique_holders"
                               (VInt (Z.of_nat (length holders))) info))))).
  { unfold get_token_stats. rewrite try_except_run, bind_run, Einfo.
    rewrite bind_run, Eholders. cbv zeta. rewrite bind_run.
    destruct (0 <? Z.of_nat (length holders)) eqn:Hpos.
    - rewrite bind_run. unfold truediv.
      assert (Hnz : (Z.of_nat (length holders) =? 0) = false)
        by (apply Z.eqb_neq; apply Z.ltb_lt in Hpos; lia).
      rewrite Hnz, !ret_run. eexists. reflexivity.
    - rewrite !ret_run. eexists. reflexivity. }
  destruct Hrun as (avg & Hrun). eexists. split; [reflexivity|].
  split; [exact Eholders|]. split; [exact Hrun|]. split; [lia|].
  split; [|split; [|split]].
  - rewrite !dict_get_set_ne by discriminate. apply dict_get_set_eq.
  - rewrite dict_get_set_ne by discriminate. rewrite dict_get_set_eq.
    destruct holders as [|holder rest]; [reflexivity|].
    unfold py_sum. change (map snd (holder :: rest)) with (snd holder :: map snd rest).
    cbv iota. change (snd holder :: map snd rest) with (map snd (holder :: rest)).
    now rewrite foldl_added_up.
  - intros k H1 H2 H3. now rewrite !dict_get_set_ne by congruence.
  - intros ->. reflexivity.
Qed.

(** ** What the caches of a running tracker hold *)

Section Writes.
Context `{Host}.
Variable T : TokenTracker -> Prop.
Hypothesis invariant : write_invariant T.

Lemma writes_get_balance (address : string) : keeps T (get_balance address).
Proof.
  intros w m Hm.
  destruct (to_checksum_address address) as [a|] eqn:Hnorm;
    [|rewrite (get_balance_invalid w m address Hnorm); now split].
  destruct (balance_hit w m a) as [v|] eqn:Hhit;
    [rewrite (get_balance_hit w m address a Hnorm v Hhit); now split|].
  destruct (chain_balanceOf (w (S (tick m))) a) as [raw|] eqn:Hraw.
  - rewrite (get_balance_fetch w m address a Hnorm raw Hhit Hraw).
    split; [|exact I]. simpl.
    apply (writes_timestamp T invariant), (writes_balance T invariant), Hm.
  - rewrite (get_balance_fail w m address a Hnorm Hhit Hraw). now split.
Qed.

Lemma writes_get_token_transactions : keeps T _get_token_transactions.
Proof.
  intros w m Hm.
  destruct (tx_hit w m) eqn:Hhit; [rewrite (tx_hit_cached w m Hhit); now split|].
  destruct (etherscan_tokentx (w (S (tick m)))) as [data|] eqn:Hdata;
    [|rewrite (tx_fail w m Hhit); [now split|intros; congruence]].
  destruct (status data) as [st|] eqn:Hst;
    [|rewrite (tx_fail w m Hhit); [now split|intros; congruence]].
  destruct (String.eqb st "1") eqn:Hone.
  - apply String.eqb_eq in Hone; subst st.
    destruct (result data) as [txs|] eqn:Hres;
      [|rewrite (tx_fail w m Hhit); [now split|intros; congruence]].
    rewrite (tx_fetch w m txs data Hhit Hdata Hst Hres). split; [|exact I]. simpl.
    apply (writes_timestamp T invariant), (writes_tx T invariant), Hm.
  - rewrite (tx_fail w m Hhit); [now split|].
    intros d t Hd Hs _. rewrite Hdata in Hd. injection Hd as <-.
    rewrite Hst in Hs. injection Hs as ->. discriminate.
Qed.

Lemma writes_get_token_info : keeps T get_token_info.
Proof.
  intros w m Hm.
  destruct (info_hit w m) as [d|] eqn:Hhit;
    [rewrite (info_hit_cached w m d Hhit); now split|].
  destruct (chain_symbol (w (S (tick m)))) as [symbol|] eqn:Hs.
  - destruct (chain_name (w (S (S (tick m))))) as [name|] eqn:Hn.
    + destruct (chain_totalSupply (w (S (S (S (tick m)))))) as [total|] eqn:Ht.
      * rewrite (info_fetch w m symbol name total Hhit Hs Hn Ht).
        split; [|exact I]. simpl.
        apply (writes_timestamp T invariant), (writes_info T invariant), Hm.
      * destruct (info_fail w m Hhit) as (m' & -> & Hsame); [auto|].
        rewrite Hsame. now split.
    + destruct (info_fail w m Hhit) as (m' & -> & Hsame); [auto|].
      rewrite Hsame. now split.
  - destruct (info_fail w m Hhit) as (m' & -> & Hsame); [auto|].
    rewrite Hsame. now split.
Qed.

Create HintDb writes.
#[local] Hint Resolve keeps_ret keeps_raise keeps_get_self keeps_bind keeps_try
  keeps_for_each writes_get_balance writes_get_token_transactions
  writes_get_token_info : writes.
#[local] Hint Extern 1 (keeps _ (match ?x with _ => _ end)) => destruct x : writes.

Lemma writes_get_top_holders (n : Z) : keeps T (get_top_holders n).
Proof. unfold get_top_holders. auto 20 with writes. Qed.

Lemma writes_run_query (q : Query) : keeps T (run_query q).
Proof.
  pose proof writes_get_top_holders.
  destruct q; simpl;
    unfold get_balance_batch, get_top_with_transactions,
      get_token_stats, truediv, get_address_history, w3_to_checksum_address;
    auto 30 with writes.
Qed.

Lemma reachable_writes (w : Oracle) (d : N) (m : Machine) :
  T (init d) -> reachable w d m -> T (tracker m).
Proof.
  intros Hinit Hreach. induction Hreach as [|m q _ IH]; [exact Hinit|].
  pose proof (writes_run_query q w m IH) as Hstep.
  destruct (run_query q w m) as [m' [[]|e]]; simpl; tauto.
Qed.
End Writes.

Lemma well_formed_written (d : N) : write_invariant (well_formed d).
Proof.
  split; unfold well_formed; simpl.
  - intros t a raw (Hd & Hb & Hi). split; [exact Hd|]. split; [|exact Hi].
    intros a' v. rewrite lookup_insert. case_decide.
    + intros [= <-]. now exists raw.
    + apply Hb.
  - intros t l Ht; exact Ht.
  - intros t symbol name total (Hd & Hb & Hi). split; [exact Hd|].
    split; [exact Hb|]. intros info [= <-]. now exists symbol, name, total.
  - intros t now Ht; exact Ht.
Qed.

Lemma reachable_well_formed `{Host} (w : Oracle) (d : N) (m : Machine) :
  reachable w d m -> well_formed d (tracker m).
Proof.
  apply (reachable_writes _ (well_formed_written d)).
  split; [reflexivity|]. split.
  - intros a v; simpl. rewrite lookup_empty. discriminate.
  - intros info; simpl. discriminate.
Qed.

(** X18: On a tracker that queries have reached from its construction with
    [d] decimals, every balance that [get_balance] returns is a whole
    number of smallest units over [10^d], also when it comes from the
    cache; the int 0 of a failed lookup is the amount zero. *)
Theorem balances_are_raw_amounts `{Host} (w : Oracle) (d : N) (m m' : Machine)
    (address : string) (v : Q) :
  reachable w d m ->
  get_balance address w m = (m', Return v) ->
  exists raw : N, (v == inject_Z (Z.of_N raw) / inject_Z (10 ^ Z.of_N d))%Q.
Proof.
  intros Hreach Hrun.
  destruct (reachable_well_formed w d m Hreach) as (Hd & Hb & _).
  destruct (to_checksum_address address) as [a|] eqn:Hnorm;
    [|rewrite (get_balance_invalid w m address Hnorm) in Hrun; discriminate].
  destruct (balance_hit w m a) as [cached|] eqn:Hhit.
  - rewrite (get_balance_hit w m address a Hnorm cached Hhit) in Hrun.
    injection Hrun as _ <-. unfold balance_hit in Hhit.
    destruct (fresh w m); [|discriminate].
    destruct (Hb a cached Hhit) as (raw & ->). exists raw.
    unfold format_balance. rewrite Hd. reflexivity.
  - destruct (chain_balanceOf (w (S (tick m))) a) as [raw|] eqn:Hraw.
    + rewrite (get_balance_fetch w m address a Hnorm raw Hhit Hraw) in Hrun.
      injection Hrun as _ <-. exists raw.
      unfold format_balance. rewrite Hd. reflexivity.
    + rewrite (get_balance_fail w m address a Hnorm Hhit Hraw) in Hrun.
      injection Hrun as _ <-. exists 0%N. simpl. unfold Qdiv.
      now rewrite Qmult_0_l.
Qed.

(** X19: On a tracker that queries have reached from its construction
    with [d] decimals, the token info is all or nothing.  What the cache
    holds, before and after a call of [get_token_info], is never a
    partial or an empty dict: it is the three fields ['symbol'], ['name']
    and ['totalSupply'] in this order, the supply being a raw amount
    over [10^d].  And what [get_token_info] returns is the empty dict or
    these three fields. *)
Theorem token_info_is_all_or_nothing `{Host} (w : Oracle) (d : N)
    (m m' : Machine) (info : Dict) :
  reachable w d m ->
  get_token_info w m = (m', Return info) ->
  (forall stored,
     _token_info_cache (tracker m) = Some stored
     \/ _token_info_cache (tracker m') = Some stored ->
     exists symbol name (total_supply : N),
       stored = [("symbol", VStr symbol);
                 ("name", VStr name);
                 ("totalSupply",
                  VFloat (inject_Z (Z.of_N total_supply)
                          / inject_Z (10 ^ Z.of_N d)))])
  /\ (info = []
      \/ exists symbol name (total_supply : N),
           info = [("symbol", VStr symbol);
                   ("name", VStr name);
                   ("totalSupply",
                    VFloat (inject_Z (Z.of_N total_supply)
                            / inject_Z (10 ^ Z.of_N d)))]).
Proof.
  intros Hreach Hrun. split.
  { assert (Hreach' : reachable w d m').
    { replace m' with (fst (run_query QTokenInfo w m));
        [now apply reach_query|].
      unfold run_query. rewrite bind_run, Hrun. reflexivity. }
    intros stored [Hstored|Hstored].
    - destruct (reachable_well_formed w d m Hreach) as (Hd & _ & Hi).
      destruct (Hi stored Hstored) as (symbol & name & total & ->).
      exists symbol, name, total. unfold format_balance. now rewrite Hd.
    - destruct (reachable_well_formed w d m' Hreach') as (Hd & _ & Hi).
      destruct (Hi stored Hstored) as (symbol & name & total & ->).
      exists symbol, name, total. unfold format_balance. now rewrite Hd. }
  destruct (reachable_well_formed w d m Hreach) as (Hd & _ & Hi).
  destruct (info_hit w m) as [cached|] eqn:Hhit.
  - rewrite (info_hit_cached w m cached Hhit) in Hrun. injection Hrun as _ <-.
    unfold info_hit in Hhit. destruct (fresh w m); [|discriminate].
    destruct (_token_info_cache (tracker m)) as [stored|] eqn:Hstored;
      [|discriminate].
    destruct (Hi stored eq_refl) as (symbol & name & total & ->).
    injection Hhit as <-. right. exists symbol, name, total.
    unfold format_balance. now rewrite Hd.
  - destruct (chain_symbol (w (S (tick m)))) as [symbol|] eqn:Hs.
    + destruct (chain_name (w (S (S (tick m))))) as [name|] eqn:Hn.
      * destruct (chain_totalSupply (w (S (S (S (tick m)))))) as [total|] eqn:Ht.
        -- rewrite (info_fetch w m symbol name total Hhit Hs Hn Ht) in Hrun.
           injection Hrun as _ <-. right. exists symbol, name, total.
           unfold format_balance. now rewrite Hd.
        -- destruct (info_fail w m Hhit) as (m1 & Hfail & _); [auto|].
           rewrite Hfail in Hrun. injection Hrun as _ <-. now left.
      * destruct (info_fail w m Hhit) as (m1 & Hfail & _); [auto|].
        rewrite Hfail in Hrun. injection Hrun as _ <-. now left.
    + destruct (info_fail w m Hhit) as (m1 & Hfail & _); [auto|].
      rewrite Hfail in Hrun. injection Hrun as _ <-. now left.
Qed.

(** ** Instances of the further properties *)

(** X1, at the scenario of the specification. *)
Lemma batch_answers_in_order_witness :
  let run := @get_balance_batch example_host [addr1; addr2; addr3]
               scenario_oracle (boot 6) in
  run = (fst run, Return [format_balance (init 6) 0;
                          format_balance (init 6) 5000000;
                          format_balance (init 6) 1000000])
  /\ exists mi mi' b,
       @get_balance_batch example_host [addr1] scenario_oracle (boot 6)
       = (mi, Return [format_balance (init 6) 0])
       /\ @get_balance example_host addr2 scenario_oracle mi = (mi', Return b)
       /\ b = format_balance (init 6) 5000000.
Proof.
  cbv zeta.
  assert (Hrun :
    @get_balance_batch example_host ([addr1] ++ addr2 :: [addr3])
      scenario_oracle (boot 6)
    = (fst (@get_balance_batch example_host [addr1; addr2; addr3]
              scenario_oracle (boot 6)),
       Return [format_balance (init 6) 0;
               format_balance (init 6) 5000000;
               format_balance (init 6) 1000000]))
    by (vm_compute; reflexivity).
  split; [exact Hrun|].
  destruct (@batch_answers_in_order example_host [addr1] [addr3] addr2
              scenario_oracle (boot 6) _ _ Hrun)
    as (_ & mi & mi' & b & Hbefore & Hlookup & Hplace).
  exists mi, mi', b. split; [exact Hbefore|]. split; [exact Hlookup|].
  simpl in Hplace. now injection Hplace as <-.
Defined.

(** X3, at an example. *)
Lemma top_holders_are_parties_of_the_log_witness :
  _get_token_transactions scenario_oracle (boot 6)
  = (fst (_get_token_transactions scenario_oracle (boot 6)), Return scenario_log)
  /\ exists m' holders,
       @get_top_holders example_host 2 scenario_oracle (boot 6) = (m', Return holders)
       /\ NoDup (map fst holders)
       /\ forall a b, (a, b) ∈ holders ->
            exists tx, tx ∈ scenario_log /\ (a = tx_from tx \/ a = tx_to tx).
Proof.
  assert (Hfetch :
    _get_token_transactions scenario_oracle (boot 6)
    = (fst (_get_token_transactions scenario_oracle (boot 6)), Return scenario_log))
    by (vm_compute; reflexivity).
  split; [exact Hfetch|].
  exact (@top_holders_are_parties_of_the_log example_host scenario_oracle (boot 6)
           _ scenario_log 2 Hfetch).
Defined.

(** X4, at an example. *)
Lemma top_with_transactions_entries_witness :
  _get_token_transactions scenario_oracle (boot 6)
  = (fst (_get_token_transactions scenario_oracle (boot 6)), Return scenario_log)
  /\ 0 <= 2
  /\ exists m' holders,
       @get_top_with_transactions example_host 2 scenario_oracle (boot 6)
       = (m', Return holders)
       /\ Z.of_nat (length holders) <= 2
       /\ descending (fun x => snd (fst x)) holders
       /\ NoDup (map (fun x => fst (fst x)) holders)
       /\ forall a b ts, (a, b, ts) ∈ holders ->
            a <> BURN_ADDRESS
            /\ (0 < b)%Q
            /\ exists tx, tx ∈ scenario_log
                          /\ (a = tx_to tx \/ a = tx_from tx)
                          /\ ts = utc_strftime (tx_timeStamp tx).
Proof.
  assert (Hfetch :
    _get_token_transactions scenario_oracle (boot 6)
    = (fst (_get_token_transactions scenario_oracle (boot 6)), Return scenario_log))
    by (vm_compute; reflexivity).
  split; [exact Hfetch|]. split; [lia|].
  apply (@top_with_transactions_entries example_host scenario_log scenario_oracle
           (boot 6) _ 2 Hfetch). lia.
Defined.

(** X8, at an example. *)
Lemma ranking_endpoints_answer_witness :
  0 < default 10 None
  /\ exists m' holders,
       @get_top_holders example_host 10 scenario_oracle (boot 6) = (m', Return holders)
       /\ Z.of_nat (length holders) <= 10.
Proof.
  split; [reflexivity|].
  destruct (@ranking_endpoints_answer example_host None scenario_oracle (boot 6))
    as ((m' & holders & Hrun & Hlen & _) & _); [reflexivity|].
  exists m', holders. split; [exact Hrun|exact Hlen].
Defined.


(** X10, at an example. *)
Lemma no_stale_fallback_witness :
  let m := fst (@get_balance example_host addr1 expiry_oracle (boot 6)) in
  ~ shared_fresh expiry_oracle m
  /\ _balance_cache (tracker m) !! addr1 = Some (format_balance (init 6) 5000000)
  /\ exists m', @get_balance example_host addr1 expiry_oracle m = (m', Return 0%Q)
                /\ _balance_cache (tracker m') !! addr1
                   = Some (format_balance (init 6) 5000000).
Proof.
  cbv zeta.
  assert (Hstale :
    ~ shared_fresh expiry_oracle
        (fst (@get_balance example_host addr1 expiry_oracle (boot 6))))
    by (vm_compute; intros Hlt; discriminate Hlt).
  split; [exact Hstale|]. split; [vm_compute; reflexivity|].
  destruct (@no_stale_fallback example_host expiry_oracle _ Hstale)
    as (Hbalance & _ & _).
  apply (Hbalance addr1 addr1); vm_compute; reflexivity.
Defined.

(** X12, at an example. *)
Lemma history_of_refused_address_witness :
  "xyz" <> ""
  /\ digits_checksum "xyz" = None
  /\ exists msg,
       @api_get_balance example_host (Some "xyz") scenario_oracle (boot 6)
       = (boot 6, Return (error msg))
       /\ snd (@api_address_history example_host (Some "xyz") None
                 scenario_oracle (boot 6))
          = Return (ok (JObject [("address", JStr "xyz");
                                 ("transactions", JList [])])).
Proof.
  split; [discriminate|]. split; [reflexivity|].
  destruct (@history_of_refused_address example_host "xyz" None
              scenario_oracle (boot 6))
    as (log & _ & _ & Hapi & msg & Hbalance); [discriminate|reflexivity|].
  exists msg. split; [exact Hbalance|]. now rewrite Hapi.
Defined.

(** X13, at an example. *)
Lemma history_with_nonpositive_limit_witness :
  digits_checksum addr2 = Some addr2
  /\ 0 <= 0
  /\ exists m1 log,
       _get_token_transactions scenario_oracle (boot 6) = (m1, Return log)
       /\ @get_address_history example_host addr2 0 scenario_oracle (boot 6)
          = (m1, Return match log with
                        | [] => []
                        | tx :: _ =>
                            if touches addr2 tx
                            then [@history_entry example_host (tracker m1) addr2 tx]
                            else []
                        end).
Proof.
  split; [reflexivity|]. split; [lia|].
  apply (@history_with_nonpositive_limit example_host addr2 addr2 0
           scenario_oracle (boot 6)); [reflexivity|lia].
Defined.

(** X6, at a body with two addresses. *)
Lemma api_get_balance_batch_answers_witness :
  exists m' bs,
    @get_balance_batch example_host [addr1; addr2] scenario_oracle (boot 6)
    = (m', Return bs)
    /\ length bs = 2%nat
    /\ @api_get_balance_batch example_host
         (DataObject {["addresses" := [addr1; addr2]]}) scenario_oracle (boot 6)
       = (m', Return (ok (JObject [("balances", JList (map JFloat bs))]))).
Proof.
  destruct (@api_get_balance_batch_answers example_host
              (DataObject {["addresses" := [addr1; addr2]]})
              scenario_oracle (boot 6)) as [_ Hlist].
  destruct (Hlist {["addresses" := [addr1; addr2]]} [addr1; addr2] eq_refl
              (lookup_singleton_eq "addresses" [addr1; addr2])) as [Hok _].
  apply Hok. repeat constructor; discriminate.
Defined.

(** X18, at an example. *)
Lemma balances_are_raw_amounts_witness :
  let m := fst (@run_query example_host (QBalance addr2) scenario_oracle (boot 6)) in
  @reachable example_host scenario_oracle 6 m
  /\ @get_balance example_host addr2 scenario_oracle m
     = (advance m, Return (format_balance (init 6) 5000000))
  /\ exists raw : N,
       (format_balance (init 6) 5000000
        == inject_Z (Z.of_N raw) / inject_Z (10 ^ Z.of_N 6))%Q.
Proof.
  cbv zeta.
  assert (Hreach :
    @reachable example_host scenario_oracle 6
      (fst (@run_query example_host (QBalance addr2) scenario_oracle (boot 6))))
    by (apply reach_query, reach_boot).
  assert (Hrun :
    @get_balance example_host addr2 scenario_oracle
      (fst (@run_query example_host (QBalance addr2) scenario_oracle (boot 6)))
    = (advance (fst (@run_query example_host (QBalance addr2) scenario_oracle (boot 6))),
       Return (format_balance (init 6) 5000000)))
    by (vm_compute; reflexivity).
  split; [exact Hreach|]. split; [exact Hrun|].
  exact (@balances_are_raw_amounts example_host scenario_oracle 6 _ _ addr2 _
           Hreach Hrun).
Defined.

(** X19, at an example. *)
Lemma token_info_is_all_or_nothing_witness :
  let m := fst (@run_query example_host QTokenInfo scenario_oracle (boot 6)) in
  @reachable example_host scenario_oracle 6 m
  /\ exists info,
       get_token_info scenario_oracle m = (advance m, Return info)
       /\ (forall stored,
             _token_info_cache (tracker m) = Some stored
             \/ _token_info_cache (tracker (advance m)) = Some stored ->
             exists symbol name (total_supply : N),
               stored = [("symbol", VStr symbol);
                         ("name", VStr name);
                         ("totalSupply",
                          VFloat (inject_Z (Z.of_N total_supply)
                                  / inject_Z (10 ^ Z.of_N 6)))])
       /\ (info = []
           \/ exists symbol name (total_supply : N),
                info = [("symbol", VStr symbol);
                        ("name", VStr name);
                        ("totalSupply",
                         VFloat (inject_Z (Z.of_N total_supply)
                                 / inject_Z (10 ^ Z.of_N 6)))]).
Proof.
  cbv zeta.
  assert (Hreach :
    @reachable example_host scenario_oracle 6
      (fst (@run_query example_host QTokenInfo scenario_oracle (boot 6))))
    by (apply reach_query, reach_boot).
  split; [exact Hreach|].
  eexists. split; [vm_compute; reflexivity|].
  eapply (@token_info_is_all_or_nothing example_host scenario_oracle 6 _ _ _ Hreach).
  vm_compute. reflexivity.
Defined.

(** ** Upstream calls of a ranking *)

Section RankingCalls.
Context `{Host}.

Lemma get_balance_calls (address : string) (w : Oracle) (m : Machine) :
  calls (fst (get_balance address w m)) = calls m
  \/ exists a, to_checksum_address address = Some a
               /\ calls (fst (get_balance address w m)) = calls m ++ [CallBalanceOf a].
Proof.
  destruct (to_checksum_address address) as [a|] eqn:Hnorm;
    [|rewrite (get_balance_invalid w m address Hnorm); now left].
  destruct (balance_hit w m a) as [v|] eqn:Hhit;
    [rewrite (get_balance_hit w m address a Hnorm v Hhit); now left|].
  right. exists a. split; [reflexivity|].
  destruct (chain_balanceOf (w (S (tick m))) a) as [raw|] eqn:Hraw.
  - now rewrite (get_balance_fetch w m address a Hnorm raw Hhit Hraw).
  - now rewrite (get_balance_fail w m address a Hnorm Hhit Hraw).
Qed.

(** The calls of the loop of [get_top_holders] over the addresses [l]:
    one for each address of [looked_up], in this order. *)
Lemma top_holders_loop_calls (l : list string) (acc : list (string * Q))
    (w : Oracle) (m : Machine) :
  exists looked_up cs,
    calls (fst (for_each l
                  (fun holders address =>
                     if String.eqb address BURN_ADDRESS then ret holders
                     else
                       try_except
                         (balance <- get_balance address ;;
                          if lt 0 balance then ret (holders ++ [(address, balance)])
                          else ret holders)
                         (fun _ => ret holders))
                  acc w m))
    = calls m ++ cs
    /\ looked_up `sublist_of` l
    /\ Forall (fun address => address <> BURN_ADDRESS) looked_up
    /\ Forall2 (fun address c =>
                  exists a, to_checksum_address address = Some a
                            /\ c = CallBalanceOf a) looked_up cs.
Proof.
  revert acc w m. induction l as [|x l IH]; intros acc w m; cbn [for_each].
  - exists [], []. rewrite app_nil_r. repeat split; constructor.
  - rewrite bind_run.
    assert (Hstep : exists m1 acc1,
               (if String.eqb x BURN_ADDRESS then ret acc
                else
                  try_except
                    (balance <- get_balance x ;;
                     if lt 0 balance then ret (acc ++ [(x, balance)]) else ret acc)
                    (fun _ => ret acc)) w m
               = (m1, Return acc1)
               /\ (calls m1 = calls m
                   \/ x <> BURN_ADDRESS
                      /\ exists a, to_checksum_address x = Some a
                                   /\ calls m1 = calls m ++ [CallBalanceOf a])).
    { destruct (String.eqb x BURN_ADDRESS) eqn:Hburn.
      - exists m, acc. split; [reflexivity|now left].
      - apply String.eqb_neq in Hburn.
        rewrite try_except_run, bind_run.
        pose proof (get_balance_calls x w m) as Hcalls.
        destruct (get_balance x w m) as [m1 [b|e]]; simpl in Hcalls.
        + assert (Hret : exists acc1,
                     (if lt 0 b then ret (acc ++ [(x, b)]) else ret acc) w m1
                     = (m1, Return acc1))
            by (destruct (lt 0 b); eexists; reflexivity).
          destruct Hret as (acc1 & ->). exists m1, acc1.
          split; [reflexivity|]. destruct Hcalls as [Hsame|Hcall]; auto.
        + exists m1, acc.
          split; [reflexivity|]. destruct Hcalls as [Hsame|Hcall]; auto. }
    destruct Hstep as (m1 & acc1 & -> & Hcalls1).
    destruct (IH acc1 w m1) as (looked_up & cs & Hcalls & Hsub & Hne & Hall).
    destruct Hcalls1 as [Hsame|(Hburn & a & Hnorm & Hcall)].
    + exists looked_up, cs. rewrite Hcalls, Hsame.
      split; [reflexivity|]. split; [now apply sublist_cons|]. now split.
    + exists (x :: looked_up), (CallBalanceOf a :: cs).
      rewrite Hcalls, Hcall, <- app_assoc.
      split; [reflexivity|]. split; [now apply sublist_skip|].
      split; [now constructor|]. constructor; [now exists a|exact Hall].
Qed.

Lemma tx_addresses_size (log : list Tx) :
  (length (set_iter (tx_addresses log)) <= 2 * length log)%nat.
Proof.
  assert (Hincl : incl (set_iter (tx_addresses log))
                    (flat_map (fun tx => [tx_from tx; tx_to tx]) log)).
  { intros a Ha. apply list_elem_of_In, set_iter_elem, elem_of_tx_addresses in Ha
      as (tx & Htx & Hor).
    apply in_flat_map. exists tx. split; [now apply list_elem_of_In|].
    simpl. destruct Hor as [->| ->]; auto. }
  apply NoDup_incl_length in Hincl; [|apply NoDup_ListNoDup, set_iter_NoDup].
  etransitivity; [exact Hincl|].
  clear. induction log as [|tx log IH]; simpl; lia.
Qed.

(** X20: The upstream cost of [get_top_holders]: at most one request for
    the log, then the [balanceOf] calls [cs], one for each address of a
    list [looked_up], in its order.  This list names no address twice,
    and each of its addresses is the sender or the recipient of a record
    of the log and is not the burn address; the call is for the normal
    form of the address.  So there is at most one [balanceOf] call for
    each distinct address of the log, and no more than twice as many as
    the log has records. *)
Theorem top_holders_upstream_calls (w : Oracle) (m m1 : Machine)
    (log : list Tx) (n : Z) :
  _get_token_transactions w m = (m1, Return log) ->
  exists looked_up cs,
    (calls m1 = calls m \/ calls m1 = calls m ++ [CallTokenTx])
    /\ calls (fst (get_top_holders n w m)) = calls m1 ++ cs
    /\ NoDup looked_up
    /\ Forall (fun address =>
                 address <> BURN_ADDRESS
                 /\ exists tx, tx ∈ log
                               /\ (address = tx_from tx \/ address = tx_to tx))
         looked_up
    /\ Forall2 (fun address c =>
                  exists a, to_checksum_address address = Some a
                            /\ c = CallBalanceOf a) looked_up cs
    /\ (length cs <= 2 * length log)%nat.
Proof.
  intros Hfetch.
  assert (Hlogcalls : calls m1 = calls m \/ calls m1 = calls m ++ [CallTokenTx]).
  { destruct (tx_hit w m) eqn:Hhit.
    - left. rewrite (tx_hit_cached w m Hhit) in Hfetch. now injection Hfetch as <- _.
    - right. pose proof (tx_miss_calls w m Hhit) as Hc. now rewrite Hfetch in Hc. }
  unfold get_top_holders. rewrite bind_run, Hfetch.
  destruct log as [|tx log].
  { exists [], []. rewrite app_nil_r. repeat split; auto; constructor. }
  rewrite bind_run.
  destruct (top_holders_loop_calls (set_iter (tx_addresses (tx :: log))) [] w m1)
    as (looked_up & cs & Hcalls & Hsub & Hne & Hall).
  destruct (top_holders_loop (set_iter (tx_addresses (tx :: log))) [] w m1)
    as (m' & holders & Hrun & _).
  match goal with
  | |- context [for_each ?l ?body ?acc w m1] =>
      replace (for_each l body acc w m1) with (m', Return ([] ++ holders))
        by (symmetry; exact Hrun)
  end.
  rewrite ret_run. simpl fst.
  exists looked_up, cs. split; [exact Hlogcalls|]. split.
  { rewrite <- Hcalls.
    match goal with
    | |- context [for_each ?l ?body ?acc w m1] =>
        replace (for_each l body acc w m1) with (m', Return ([] ++ holders))
          by (symmetry; exact Hrun)
    end.
    reflexivity. }
  split; [eapply sublist_NoDup; [apply set_iter_NoDup|exact Hsub]|].
  split.
  { apply Forall_forall. intros address Hin. split.
    - exact (proj1 (Forall_forall _ _) Hne address Hin).
    - assert (Hl : address ∈ set_iter (tx_addresses (tx :: log))).
      { apply sublist_submseteq in Hsub.
        exact (elem_of_submseteq _ _ _ Hin Hsub). }
      apply set_iter_elem, elem_of_tx_addresses in Hl as (tx' & Htx' & Hor).
      exists tx'. auto. }
  split; [exact Hall|].
  rewrite <- (Forall2_length _ _ _ Hall).
  etransitivity; [exact (sublist_length _ _ Hsub)|apply tx_addresses_size].
Qed.
End RankingCalls.

(** X20, at an example: two records among three addresses, one log
    request and three lookups. *)
Lemma top_holders_upstream_calls_witness :
  _get_token_transactions scenario_oracle (boot 6)
  = (fst (_get_token_transactions scenario_oracle (boot 6)), Return scenario_log)
  /\ exists looked_up cs,
       calls (fst (@get_top_holders example_host 2 scenario_oracle (boot 6)))
       = [CallTokenTx] ++ cs
       /\ NoDup looked_up
       /\ Forall2 (fun address c =>
                     exists a, digits_checksum address = Some a
                               /\ c = CallBalanceOf a) looked_up cs
       /\ (length cs <= 2 * length scenario_log)%nat.
Proof.
  assert (Hfetch :
    _get_token_transactions scenario_oracle (boot 6)
    = (fst (_get_token_transactions scenario_oracle (boot 6)), Return scenario_log))
    by (vm_compute; reflexivity).
  split; [exact Hfetch|].
  destruct (@top_holders_upstream_calls example_host scenario_oracle (boot 6)
              _ scenario_log 2 Hfetch)
    as (looked_up & cs & _ & Hcalls & Hnodup & _ & Hall & Hlen).
  exists looked_up, cs. auto.
Defined.
